(** * pi-open-sessions-files-extension: a shallow embedding of
      [open-session-files.ts] and the properties of its pure core.

    The extension scans the session log for the files the agent edited,
    shows a picker and launches a command on the chosen file.  The
    functions below follow the TypeScript source one by one and keep its
    names.  JavaScript strings are modelled by Rocq strings over 7-bit
    ASCII characters; the host built-ins the source calls
    ([String.prototype.trim], [toLowerCase], [includes], [replaceAll],
    [String()], property access) are written out for that fragment, and the
    ones whose behaviour is supplied by the platform ([JSON.parse],
    [path.join], [path.basename]) are fields of the [platform] record, next
    to the environment and the file system. *)

From Stdlib Require Import Ascii String.
From stdpp Require Import base strings list gmap sets pretty sorting.

Open Scope string_scope.

(** ** Errors and the exception monad *)

(** The two exceptions the source can raise: a [TypeError] (property of
    [null]/[undefined], call of a non-function, conversion of an object to
    a primitive) and the [SyntaxError] of [JSON.parse]. *)
Inductive error : Type := TypeError | SyntaxError.

Inductive result (A : Type) : Type :=
| Ok (a : A)
| Throw (e : error).
Arguments Ok {A} a.
Arguments Throw {A} e.

#[export] Instance result_ret : MRet result := λ A a, Ok a.

#[export] Instance result_bind : MBind result := λ A B k m,
  match m with
  | Ok a => k a
  | Throw e => Throw e
  end.

(** A [for ... of] loop whose body may throw: the state is threaded from
    left to right and the first exception ends the loop. *)
Fixpoint forOf {A S : Type} (body : S → A → result S) (st : S) (l : list A)
  : result S :=
  match l with
  | [] => Ok st
  | x :: l' => st' ← body st x; forOf body st' l'
  end.

(** ** Strings *)

Module Str.

(** The double quote character, and a spelling aid for texts that contain
    it: [dq s] is [s] with every backquote replaced by a double quote. *)
Definition dquote : ascii := "034"%char.

Fixpoint dq (s : string) : string :=
  match s with
  | EmptyString => EmptyString
  | String c r => String (if Ascii.eqb c "`" then dquote else c) (dq r)
  end.

(** ECMAScript WhiteSpace and LineTerminator, ASCII part: TAB, LF, VT, FF,
    CR and SPACE. *)
Definition isWhiteSpace (c : ascii) : bool :=
  let n := nat_of_ascii c in
  ((9 <=? n)%nat && (n <=? 13)%nat) || (n =? 32)%nat.

Fixpoint trimStart (s : string) : string :=
  match s with
  | String c r => if isWhiteSpace c then trimStart r else s
  | EmptyString => EmptyString
  end.

(** [trimEnd] as a right fold: a whitespace character is dropped when all
    that follows it has been dropped. *)
Fixpoint trimEnd (s : string) : string :=
  match s with
  | EmptyString => EmptyString
  | String c r =>
      match trimEnd r with
      | EmptyString => if isWhiteSpace c then EmptyString else String c EmptyString
      | r' => String c r'
      end
  end.

Definition trim (s : string) : string := trimEnd (trimStart s).

Definition lowerChar (c : ascii) : ascii :=
  let n := nat_of_ascii c in
  if ((65 <=? n)%nat && (n <=? 90)%nat) then ascii_of_nat (n + 32) else c.

Fixpoint toLowerCase (s : string) : string :=
  match s with
  | EmptyString => EmptyString
  | String c r => String (lowerChar c) (toLowerCase r)
  end.

(** [startsWith p s]: [p] is a prefix of [s]. *)
Fixpoint startsWith (p s : string) : bool :=
  match p, s with
  | EmptyString, _ => true
  | String a p', String b s' => Ascii.eqb a b && startsWith p' s'
  | String _ _, EmptyString => false
  end.

(** [includes s p]: [p] occurs in [s]. *)
Fixpoint includes (s p : string) : bool :=
  startsWith p s ||
  match s with
  | EmptyString => false
  | String _ r => includes r p
  end.

Fixpoint drop (n : nat) (s : string) : string :=
  match n, s with
  | 0, _ => s
  | S k, String _ r => drop k r
  | S _, EmptyString => EmptyString
  end.

(** GetSubstitution of ECMA-262 for a search value that is a string (so
    there are no captures): in the replacement text, [$$] stands for [$],
    [$&] for the matched text, [$`] for the part of the subject before the
    match and [$'] for the part after it; every other character, a [$]
    followed by anything else included, stands for itself. *)
Fixpoint getSubstitution (matched before after repl : string) : string :=
  match repl with
  | EmptyString => EmptyString
  | String "$" (String "$" r) =>
      String "$" (getSubstitution matched before after r)
  | String "$" (String "&" r) =>
      matched +:+ getSubstitution matched before after r
  | String "$" (String "`" r) =>
      before +:+ getSubstitution matched before after r
  | String "$" (String "'" r) =>
      after +:+ getSubstitution matched before after r
  | String c r => String c (getSubstitution matched before after r)
  end.

(** The scan of [replaceAll]: [before] is the part of the subject already
    passed, [rest] what is left of it, and [skip] the number of characters
    of a match still to pass.  Matches are found from left to right and do
    not overlap; each is replaced by its substitution. *)
Fixpoint replaceAllFrom (pat repl before : string) (skip : nat) (rest : string)
  : string :=
  match skip with
  | S k =>
      match rest with
      | String c r => replaceAllFrom pat repl (before +:+ String c "") k r
      | EmptyString => EmptyString
      end
  | 0 =>
      if startsWith pat rest then
        let sub :=
          getSubstitution pat before (drop (String.length pat) rest) repl in
        match rest with
        | String c r =>
            match String.length pat with
            | 0 => sub +:+ String c
                     (replaceAllFrom pat repl (before +:+ String c "") 0 r)
            | S k => sub +:+ replaceAllFrom pat repl (before +:+ String c "") k r
            end
        | EmptyString => sub
        end
      else
        match rest with
        | String c r =>
            String c (replaceAllFrom pat repl (before +:+ String c "") 0 r)
        | EmptyString => EmptyString
        end
  end.

(** [s.replaceAll(pat, repl)] for a string [pat]. *)
Definition replaceAll (s pat repl : string) : string :=
  replaceAllFrom pat repl "" 0 s.

(** [s.replace(/^@/, "")]. *)
Definition stripLeadingAt (s : string) : string :=
  match s with
  | String "@" r => r
  | _ => s
  end.

End Str.

(** ** [shellEscape] *)

(** The replacement text of [shellEscape]: a double quote, a single quote,
    a double quote, a single quote. *)
Definition quoteReplacement : string :=
  String Str.dquote (String "'" (String Str.dquote (String "'" ""))).

(** The argument between single quotes, every single quote of it replaced
    by [quoteReplacement].  The source uses [replace] with the global
    regular expression that matches a single quote; the replacement text
    has no [$], so each match is replaced by the text itself. *)
Definition shellEscape (arg : string) : string :=
  "'" +:+ Str.replaceAll arg "'" quoteReplacement +:+ "'".

(** ** JavaScript values *)

(** A number, as far as the program can tell numbers apart.  It never
    computes with a number: it tests it for truth ([0] and [NaN] are the
    numbers that count as false) and converts it to a string.  A number is
    therefore held as the outcome of these two, which covers every double,
    the fractions and the large numbers that print with an exponent
    included. *)
Record number : Type := {
  number_truthy : bool;
  number_text : string;
}.

(** The integer [n] as a number: [String()] prints its decimal digits.
    This is the number [n] for the safe integers, those of magnitude up to
    2^53, which a double holds exactly. *)
Definition integer (n : Z) : number :=
  {| number_truthy := negb (n =? 0)%Z; number_text := pretty n |}.

(** The plain data that reaches the extension from the session log and the
    settings files.  An object is the list of its own properties, looked up
    by key. *)
#[warnings="-register-all"]
Inductive value : Type :=
| VUndefined
| VNull
| VBool (b : bool)
| VNum (n : number)
| VStr (s : string)
| VArr (items : list value)
| VObj (fields : list (string * value)).

Module Js.

Definition truthy (v : value) : bool :=
  match v with
  | VUndefined | VNull => false
  | VBool b => b
  | VNum n => number_truthy n
  | VStr s => negb (String.eqb s "")
  | VArr _ | VObj _ => true
  end.

Definition nullish (v : value) : bool :=
  match v with
  | VUndefined | VNull => true
  | _ => false
  end.

(** [typeof v === "object"]: objects, arrays and [null]. *)
Definition typeofObject (v : value) : bool :=
  match v with
  | VNull | VArr _ | VObj _ => true
  | _ => false
  end.

(** [v === s] for a string literal [s]. *)
Definition isStr (v : value) (s : string) : bool :=
  match v with
  | VStr s' => String.eqb s' s
  | _ => false
  end.

(** [a ?? b], with [b] evaluated only when needed. *)
Definition coalesce (a : value) (b : result value) : result value :=
  if nullish a then b else Ok a.

Fixpoint lookupField (k : string) (fs : list (string * value)) : value :=
  match fs with
  | [] => VUndefined
  | (k', v) :: fs' => if String.eqb k' k then v else lookupField k fs'
  end.

Definition hasField (k : string) (fs : list (string * value)) : bool :=
  existsb (λ kv, String.eqb kv.1 k) fs.

(** [o[k] = v] on the property list: an existing property is overwritten in
    place, a new one is added at the end. *)
Fixpoint setField (k : string) (v : value) (fs : list (string * value))
  : list (string * value) :=
  match fs with
  | [] => [(k, v)]
  | (k', v') :: fs' =>
      if String.eqb k' k then (k, v) :: fs' else (k', v') :: setField k v fs'
  end.

(** [v.k] for the property names this program reads (none of them is
    [length], an index or a method of a primitive's prototype): a
    [TypeError] on [null] and [undefined], the own property of an object,
    [undefined] on everything else. *)
Definition prop (v : value) (k : string) : result value :=
  match v with
  | VUndefined | VNull => Throw TypeError
  | VObj fs => Ok (lookupField k fs)
  | _ => Ok VUndefined
  end.

(** [v?.k] *)
Definition optProp (v : value) (k : string) : result value :=
  if nullish v then Ok VUndefined else prop v k.

Definition join (sep : string) (parts : list string) : string :=
  match parts with
  | [] => ""
  | p :: ps => fold_left (λ acc q, acc +:+ sep +:+ q) ps p
  end.

(** [String(v)].  An array is the comma-separated conversion of its items,
    [null] and [undefined] items giving the empty text.  An object with no
    [toString] of its own is [[object Object]]; one whose own [toString]
    is data cannot be converted, which is a [TypeError]. *)
Fixpoint toString (v : value) : result string :=
  match v with
  | VUndefined => Ok "undefined"
  | VNull => Ok "null"
  | VBool true => Ok "true"
  | VBool false => Ok "false"
  | VNum n => Ok (number_text n)
  | VStr s => Ok s
  | VArr items =>
      let item (x : value) : result string :=
        if nullish x then Ok "" else toString x in
      parts ← (fix each (l : list value) : result (list string) :=
                 match l with
                 | [] => Ok []
                 | x :: l' => s ← item x; ss ← each l'; Ok (s :: ss)
                 end) items;
      Ok (join "," parts)
  | VObj fs =>
      if hasField "toString" fs then Throw TypeError else Ok "[object Object]"
  end.

(** The own enumerable properties that [{...v}] copies from an object or an
    array (the indices of an array, as decimal keys). *)
Definition ownEntries (v : value) : list (string * value) :=
  match v with
  | VObj fs => fs
  | VArr items => imap (λ i x, (pretty i, x)) items
  | _ => []
  end.

(** [{...a, ...b}] *)
Definition spread (a : list (string * value)) (b : value)
  : list (string * value) :=
  fold_left (λ acc kv, setField kv.1 kv.2 acc) (ownEntries b) a.

End Js.

(** ** The platform *)

(** What a settings path holds when it is read: nothing, something that
    exists and cannot be read (a directory, say), or a text. *)
Inductive fileState : Type :=
| Missing
| Unreadable
| Content (raw : string).

(** The platform the extension runs on: the process environment, the home
    directory, the file system, and the two built-ins whose behaviour the
    source takes from the platform: [JSON.parse] ([None] is a
    [SyntaxError]), [path.join] and [path.basename]. *)
Record platform : Type := {
  env : string → option string;
  homedir : string;
  fs : string → fileState;
  JSON_parse : string → option value;
  path_join : list string → string;
  path_basename : string → string;
}.

Definition existsSync (files : string → fileState) (path : string) : bool :=
  match files path with
  | Missing => false
  | _ => true
  end.

(** [readFileSync(path, "utf-8")], [None] when it throws. *)
Definition readFileSync (files : string → fileState) (path : string)
  : option string :=
  match files path with
  | Content raw => Some raw
  | _ => None
  end.

Definition jsonParse (h : platform) (text : string) : result value :=
  match JSON_parse h text with
  | Some v => Ok v
  | None => Throw SyntaxError
  end.

(** [process.env.NAME?.trim()] as a value. *)
Definition envTrim (h : platform) (name : string) : value :=
  match env h name with
  | Some s => VStr (Str.trim s)
  | None => VUndefined
  end.

(** [process.env.A || fallback] for a text fallback. *)
Definition envOr (h : platform) (name : string) (fallback : string) : string :=
  match env h name with
  | Some s => if String.eqb s "" then fallback else s
  | None => fallback
  end.

(** ** Settings *)

(** The settings object ([merged] in the source): its own properties.
    The source types it as [ExtensionSettings], but what a settings file
    supplies is copied into it unchecked. *)
Definition settings : Type := list (string * value).

Definition pickExtensionSettings (parsed : value) : result value :=
  direct ← Js.optProp parsed "openSessionFiles";
  Ok (if Js.typeofObject direct && Js.truthy direct then direct else VObj []).

Definition normalizeMode (v : value) : value :=
  if Js.isStr v "foreground" || Js.isStr v "background" then v else VUndefined.

(** One turn of the loop over [settingsPaths]: the body of the [try],
    whose exceptions are all caught and ignored. *)
Definition mergeSettingsFile (h : platform) (merged : settings) (path : string)
  : settings :=
  if negb (existsSync (fs h) path) then merged else
  match readFileSync (fs h) path with
  | None => merged
  | Some raw =>
      match (parsed ← jsonParse h raw;
             picked ← pickExtensionSettings parsed;
             Ok (Js.spread merged picked)) with
      | Ok merged' => merged'
      | Throw _ => merged
      end
  end.

Definition setIfTruthy (k : string) (v : value) (o : settings) : settings :=
  if Js.truthy v then Js.setField k v o else o.

Definition loadSettings (h : platform) (cwd : string) : result settings :=
  let envCommand := envTrim h "PI_OPEN_FILE_COMMAND" in
  let envMode := normalizeMode (envTrim h "PI_OPEN_FILE_MODE") in
  let envShortcut := envTrim h "PI_OPEN_FILE_SHORTCUT" in
  let merged : settings := [] in
  let merged := setIfTruthy "openCommand" envCommand merged in
  let merged := setIfTruthy "openMode" envMode merged in
  let merged := setIfTruthy "shortcut" envShortcut merged in
  let agentDir :=
    match envTrim h "PI_CODING_AGENT_DIR" with
    | VStr d => if String.eqb d "" then path_join h [homedir h; ".pi"; "agent"] else d
    | _ => path_join h [homedir h; ".pi"; "agent"]
    end in
  let settingsPaths :=
    [path_join h [agentDir; "settings.json"];
     path_join h [cwd; ".pi"; "settings.json"]] in
  let merged := fold_left (mergeSettingsFile h) settingsPaths merged in
  let mode := normalizeMode (Js.lookupField "openMode" merged) in
  let merged :=
    Js.setField "openMode" (if Js.nullish mode then VStr "foreground" else mode)
      merged in
  let shortcut := Js.lookupField "shortcut" merged in
  match (if Js.truthy shortcut then shortcut else VStr "alt+o") with
  | VStr s => Ok (Js.setField "shortcut" (VStr (Str.toLowerCase s)) merged)
  | _ => Throw TypeError
  end.

(** ** The command line *)

Definition buildOpenCommand (h : platform) (filePath cwd : string) (st : settings)
  : result string :=
  let editor := envOr h "VISUAL" (envOr h "EDITOR" "vi") in
  let fallback := editor +:+ " {file}" in
  template ←
    match Js.lookupField "openCommand" st with
    | VUndefined | VNull => Ok fallback
    | VStr s =>
        let t := Str.trim s in Ok (if String.eqb t "" then fallback else t)
    | _ => Throw TypeError
    end;
  let templateMentionsFile := Str.includes template "{file}" in
  let command :=
    Str.replaceAll
      (Str.replaceAll template "{file}" (shellEscape filePath))
      "{cwd}" (shellEscape cwd) in
  Ok (if templateMentionsFile then command
      else command +:+ " " +:+ shellEscape filePath).

(** ** The files the session edited *)

(** The session context: the entries of the current branch and the working
    directory. *)
Record context : Type := {
  branch : list value;
  ctx_cwd : string;
}.

(** The state of the scan: the set [seen] and the array [files]. *)
Record scan : Type := {
  seen : gset string;
  files : list string;
}.

Definition isToolCallTag (t : value) : bool :=
  Js.isStr t "toolCall" || Js.isStr t "tool_use" || Js.isStr t "tool_call".

(** [block.name ?? block.function?.name ?? ""] *)
Definition blockName (block : value) : result value :=
  n ← Js.prop block "name";
  n' ← Js.coalesce n (f ← Js.prop block "function"; Js.optProp f "name");
  Js.coalesce n' (Ok (VStr "")).

(** [block.arguments ?? block.input ??
     (block.function?.arguments ? JSON.parse(block.function.arguments)
                                : undefined)];
    [JSON.parse] converts its argument to a string first. *)
Definition blockArgs (h : platform) (block : value) : result value :=
  a ← Js.prop block "arguments";
  a' ← Js.coalesce a (Js.prop block "input");
  Js.coalesce a'
    (f ← Js.prop block "function";
     fa ← Js.optProp f "arguments";
     if Js.truthy fa then text ← Js.toString fa; jsonParse h text
     else Ok VUndefined).

(** The body of the loop over [msg.content]. *)
Definition visitBlock (h : platform) (st : scan) (block : value) : result scan :=
  if negb (Js.truthy block) || negb (Js.typeofObject block) then Ok st else
  t ← Js.prop block "type";
  if negb (isToolCallTag t) then Ok st else
  name ← blockName block;
  if negb (Js.isStr name "edit") && negb (Js.isStr name "write") then Ok st else
  args ← blockArgs h block;
  path ← Js.optProp args "path";
  if negb (Js.truthy path) then Ok st else
  text ← Js.toString path;
  let filePath := Str.stripLeadingAt text in
  if decide (filePath ∈ seen st) then Ok st
  else Ok {| seen := {[filePath]} ∪ seen st; files := files st ++ [filePath] |}.

(** The body of the loop over [entries]. *)
Definition visitEntry (h : platform) (st : scan) (entry : value) : result scan :=
  t ← Js.prop entry "type";
  if negb (Js.isStr t "message") then Ok st else
  msg ← Js.prop entry "message";
  if negb (Js.truthy msg) then Ok st else
  role ← Js.prop msg "role";
  if negb (Js.isStr role "assistant") then Ok st else
  content ← Js.prop msg "content";
  match content with
  | VArr blocks => forOf (visitBlock h) st blocks
  | _ => Ok st
  end.

Definition getSessionEditedFiles (h : platform) (ctx : context)
  : result (list string) :=
  st ← forOf (visitEntry h) {| seen := ∅; files := [] |} (branch ctx);
  Ok (files st).

(** ** Launching the command *)

(** What the extension does to the outside: notifications, processes, and
    the terminal UI. [Spawn] is the detached [spawn] followed by [unref],
    [SpawnSync] the attached [spawnSync]; [PickerShown] is the modal view
    of [ctx.ui.custom] with the candidates it lists. *)
Inductive event : Type :=
| Notify (message level : string)
| Spawn (shell : string) (args : list string) (cwd : string)
| SpawnSync (shell : string) (args : list string) (cwd : string)
| PickerShown (paths : list string)
| TuiStop
| StdoutWrite (text : string)
| TuiStart
| TuiRequestRender (force : bool).

(** A computation with effects: the events it caused, in order, and how it
    ended. An exception keeps the events that came before it. *)
Record io (A : Type) : Type := Io {
  trace : list event;
  outcome : result A;
}.
Arguments Io {A} trace outcome.
Arguments trace {A} _.
Arguments outcome {A} _.

#[export] Instance io_ret : MRet io := λ A a, Io [] (Ok a).

#[export] Instance io_bind : MBind io := λ A B k m,
  match outcome m with
  | Ok a => Io (trace m ++ trace (k a)) (outcome (k a))
  | Throw e => Io (trace m) (Throw e)
  end.

Definition emit (e : event) : io unit := Io [e] (Ok ()).

Definition pure {A : Type} (r : result A) : io A := Io [] r.

Definition runOpenCommand (h : platform) (filePath cwd : string) (st : settings)
  : io unit :=
  let shell := envOr h "SHELL" "/bin/sh" in
  command ← pure (buildOpenCommand h filePath cwd st);
  let mode := Js.lookupField "openMode" st in
  let mode := if Js.nullish mode then VStr "foreground" else mode in
  if Js.isStr mode "background" then emit (Spawn shell ["-lc"; command] cwd)
  else emit (SpawnSync shell ["-lc"; command] cwd).

(** ** Ranking *)

Record Candidate : Type := {
  path : string;
  search : string;
}.

#[export] Instance Candidate_eq_dec : EqDecision Candidate.
Proof. solve_decision. Defined.

(** One result of [fuzzysort.go]: the score and the object it was computed for. *)
Record fuzzyResult : Type := {
  score : Z;
  obj : Candidate;
}.

Definition betterOrEqual (a b : fuzzyResult) : Prop := (score b ≤ score a)%Z.

#[export] Instance betterOrEqual_dec a b : Decision (betterOrEqual a b).
Proof. unfold betterOrEqual. apply _. Defined.

(** The score of one candidate's search key, [None] for a key that does
    not match the query. *)
Definition scoreCandidate (fuzzyScore : string → string → option Z)
    (query : string) (c : Candidate) : option fuzzyResult :=
  s ← fuzzyScore query (search c); Some {| score := s; obj := c |}.

(** A result put into a list sorted by descending score: before the first
    entry it is at least as good as, so that it stays in front of the
    entries of equal score. *)
Fixpoint insertByScore (r : fuzzyResult) (l : list fuzzyResult)
  : list fuzzyResult :=
  match l with
  | [] => [r]
  | x :: l' =>
      if decide (betterOrEqual r x) then r :: x :: l'
      else x :: insertByScore r l'
  end.

(** The stable sort by descending score: results of equal score keep the
    order they have in the input. *)
Definition sortByScore (l : list fuzzyResult) : list fuzzyResult :=
  foldr insertByScore [] l.

(** Modelled from the spec: the fuzzysort library, whose [go] the source
    calls with [key: "search"] and [limit: 200], is not part of the
    sources.  Following the spec's words, every candidate's search key is
    scored against the query ([fuzzyScore], the library's scoring, is left
    open), the matches are sorted by descending score, ties in a stable
    order, and the result is capped at [limit] entries. *)
Definition fuzzysort_go (fuzzyScore : string → string → option Z)
    (query : string) (targets : list Candidate) (limit : nat)
  : list fuzzyResult :=
  take limit
    (sortByScore (omap (scoreCandidate fuzzyScore query) targets)).

Definition rankCandidates (fuzzyScore : string → string → option Z)
    (candidates : list Candidate) (query : string) : list Candidate :=
  if String.eqb (Str.trim query) "" then candidates
  else obj <$> fuzzysort_go fuzzyScore query candidates 200.

(** ** The picker flow *)

(** ESC [2J ESC [H *)
Definition clearScreen : string :=
  String "027"%char "[2J" +:+ String "027"%char "[H".

(** The candidates of the picker: the files that exist, each with its
    search key, the base name and the path. *)
Definition buildCandidates (h : platform) (found : list string) : list Candidate :=
  (λ p, {| path := p; search := path_basename h p +:+ " " +:+ p |})
    <$> filter (λ p, existsSync (fs h) p = true) found.

(** [openFilePicker]. [h] is the platform when the picker opens, [later]
    the file system when the picker has resolved, and [pick] what the
    modal view resolves to for the candidates it was given: a path, or
    [None] for [null]. *)
Definition openFilePicker (h : platform) (later : string → fileState)
    (pick : list Candidate → option string) (ctx : context) : io unit :=
  found ← pure (getSessionEditedFiles h ctx);
  if (length found =? 0)%nat then
    emit (Notify "No files edited by the agent in this session" "warning")
  else
  st ← pure (loadSettings h (ctx_cwd ctx));
  let candidates := buildCandidates h found in
  if (length candidates =? 0)%nat then
    emit (Notify "No existing edited files to open" "warning")
  else
  _ ← emit (PickerShown (path <$> candidates));
  match pick candidates with
  | None => mret ()
  | Some selected =>
      if String.eqb selected "" then mret () else
      if negb (existsSync later selected) then
        emit (Notify ("File no longer exists: " +:+ selected) "warning")
      else
      let mode := Js.lookupField "openMode" st in
      let mode := if Js.nullish mode then VStr "foreground" else mode in
      if Js.isStr mode "background" then
        _ ← runOpenCommand h selected (ctx_cwd ctx) st;
        emit (Notify "Launched open command in background" "info")
      else
        _ ← emit TuiStop;
        _ ← emit (StdoutWrite clearScreen);
        _ ← runOpenCommand h selected (ctx_cwd ctx) st;
        _ ← emit TuiStart;
        emit (TuiRequestRender true)
  end.

(** ** A JSON reader for the examples *)

(** Concrete inputs need a concrete [JSON.parse].  [Json.parse] reads the
    fragment of JSON the examples use: objects, arrays, strings with the
    one-letter escapes, literals of safe integers, [true], [false], [null]
    and white space.  It answers [None] on a text that is not JSON; a text
    outside the fragment (a fraction, an exponent, an integer beyond 2^53,
    a [\u] escape) is not used below. *)
Module Json.

Definition isDigit (c : ascii) : bool :=
  let n := nat_of_ascii c in (48 <=? n)%nat && (n <=? 57)%nat.

(** JSON white space: TAB, LF, CR, SPACE. *)
Definition isWs (c : ascii) : bool :=
  let n := nat_of_ascii c in
  (n =? 9)%nat || (n =? 10)%nat || (n =? 13)%nat || (n =? 32)%nat.

Fixpoint skipWs (s : string) : string :=
  match s with
  | String c r => if isWs c then skipWs r else s
  | EmptyString => EmptyString
  end.

Definition unescape (c : ascii) : option ascii :=
  if Ascii.eqb c Str.dquote then Some Str.dquote
  else if Ascii.eqb c "\" then Some "\"%char
  else if Ascii.eqb c "/" then Some "/"%char
  else if Ascii.eqb c "b" then Some "008"%char
  else if Ascii.eqb c "f" then Some "012"%char
  else if Ascii.eqb c "n" then Some "010"%char
  else if Ascii.eqb c "r" then Some "013"%char
  else if Ascii.eqb c "t" then Some "009"%char
  else None.

(** The characters of a string literal after its opening quote, and what
    follows its closing quote. *)
Fixpoint stringBody (s : string) : option (string * string) :=
  match s with
  | EmptyString => None
  | String c r =>
      if Ascii.eqb c Str.dquote then Some (EmptyString, r)
      else if Ascii.eqb c "\" then
        match r with
        | String e r' =>
            c' ← unescape e;
            '(body, rest) ← stringBody r';
            Some (String c' body, rest)
        | EmptyString => None
        end
      else if (nat_of_ascii c <? 32)%nat then None
      else '(body, rest) ← stringBody r; Some (String c body, rest)
  end.

Fixpoint digits (acc : Z) (s : string) : Z * string :=
  match s with
  | String c r =>
      if isDigit c then digits (10 * acc + Z.of_nat (nat_of_ascii c - 48)) r
      else (acc, s)
  | EmptyString => (acc, s)
  end.

(** An integer literal: [0] or a digit string with no leading zero; a
    fraction or an exponent after it is outside the fragment. *)
Definition natural (s : string) : option (Z * string) :=
  match s with
  | String c r =>
      if negb (isDigit c) then None
      else
        let '(n, rest) := if Ascii.eqb c "0" then (0%Z, r) else digits 0 s in
        match rest with
        | String d _ =>
            if isDigit d || Ascii.eqb d "." || Ascii.eqb d "e" || Ascii.eqb d "E"
            then None else Some (n, rest)
        | EmptyString => Some (n, rest)
        end
  | EmptyString => None
  end.

Definition literal (word : string) (v : value) (s : string)
  : option (value * string) :=
  if Str.startsWith word s then Some (v, Str.drop (String.length word) s)
  else None.

(** [parseValue fuel s]: the value at the head of [s] (after white space)
    and the text after it; [elements] and [members] read what follows the
    opening bracket of an array and of an object. *)
Fixpoint parseValue (fuel : nat) (s : string) : option (value * string) :=
  match fuel with
  | 0 => None
  | S fuel' =>
      match skipWs s with
      | EmptyString => None
      | String c r =>
          if Ascii.eqb c "{" then
            match skipWs r with
            | String "}" r' => Some (VObj [], r')
            | _ => '(fs, rest) ← members fuel' [] r; Some (VObj fs, rest)
            end
          else if Ascii.eqb c "[" then
            match skipWs r with
            | String "]" r' => Some (VArr [], r')
            | _ => '(items, rest) ← elements fuel' r; Some (VArr items, rest)
            end
          else if Ascii.eqb c Str.dquote then
            '(body, rest) ← stringBody r; Some (VStr body, rest)
          else if Ascii.eqb c "-" then
            '(n, rest) ← natural r; Some (VNum (integer (- n)), rest)
          else if isDigit c then
            '(n, rest) ← natural (String c r); Some (VNum (integer n), rest)
          else
            match literal "true" (VBool true) (String c r) with
            | Some x => Some x
            | None =>
                match literal "false" (VBool false) (String c r) with
                | Some x => Some x
                | None => literal "null" VNull (String c r)
                end
            end
      end
  end
with elements (fuel : nat) (s : string) : option (list value * string) :=
  match fuel with
  | 0 => None
  | S fuel' =>
      '(v, rest) ← parseValue fuel' s;
      match skipWs rest with
      | String "," r => '(vs, rest') ← elements fuel' r; Some (v :: vs, rest')
      | String "]" r => Some ([v], r)
      | _ => None
      end
  end
with members (fuel : nat) (acc : list (string * value)) (s : string)
  : option (list (string * value) * string) :=
  match fuel with
  | 0 => None
  | S fuel' =>
      match skipWs s with
      | String c r =>
          if Ascii.eqb c Str.dquote then
            '(k, rest) ← stringBody r;
            match skipWs rest with
            | String ":" r1 =>
                '(v, rest1) ← parseValue fuel' r1;
                let acc' := Js.setField k v acc in
                match skipWs rest1 with
                | String "," r2 => members fuel' acc' r2
                | String "}" r2 => Some (acc', r2)
                | _ => None
                end
            | _ => None
            end
          else None
      | EmptyString => None
      end
  end.

Definition parse (text : string) : option value :=
  '(v, rest) ← parseValue (S (String.length text)) text;
  match skipWs rest with
  | EmptyString => Some v
  | _ => None
  end.

End Json.

(** [path.join] and [path.basename] for the examples: the parts joined by
    a slash, and the text after the last slash. *)
Definition joinSlash (parts : list string) : string := Js.join "/" parts.

Fixpoint afterLastSlash (s : string) : string :=
  match s with
  | EmptyString => EmptyString
  | String c r =>
      if Str.includes r "/" then afterLastSlash r
      else if Ascii.eqb c "/" then r else s
  end.

(** A platform with the given environment and files. *)
Definition examplePlatform (vars : list (string * string))
    (files : list (string * string)) : platform :=
  {| env := λ name, snd <$> find (λ kv, String.eqb kv.1 name) vars;
     homedir := "/home/u";
     fs := λ p, match find (λ kv, String.eqb kv.1 p) files with
                | Some kv => Content kv.2
                | None => Missing
                end;
     JSON_parse := Json.parse;
     path_join := joinSlash;
     path_basename := afterLastSlash |}.

(** ** Session logs for the statements below *)

(** A tool-call block [{type: tag, name, arguments: {path}}]. *)
Definition toolCall (tag name : string) (p : value) : value :=
  VObj [("type", VStr tag); ("name", VStr name);
        ("arguments", VObj [("path", p)])].

(** A tool-call block in the nested shape, its arguments a JSON text:
    [{type: "tool_call", function: {name, arguments: text}}]. *)
Definition functionCall (name text : string) : value :=
  VObj [("type", VStr "tool_call");
        ("function", VObj [("name", VStr name); ("arguments", VStr text)])].

(** An entry [{type: "message", message: {role: "assistant", content}}]. *)
Definition assistantMessage (blocks : list value) : value :=
  VObj [("type", VStr "message");
        ("message", VObj [("role", VStr "assistant"); ("content", VArr blocks)])].

Definition session (entries : list value) : context :=
  {| branch := entries; ctx_cwd := "/w" |}.

(** ** Definitions used by the statements *)

(** What [shellEscape] puts between the outer quotes: every single quote
    replaced by [quoteReplacement], every other character kept. *)
Fixpoint escapeQuotes (s : string) : string :=
  match s with
  | EmptyString => EmptyString
  | String c r =>
      if Ascii.eqb c "'" then quoteReplacement +:+ escapeQuotes r
      else String c (escapeQuotes r)
  end.

(** The scenario of the spec: [PI_OPEN_FILE_MODE=background] in the
    environment, [openMode: "foreground"] in both settings files. *)
Definition foregroundSettings : string :=
  Str.dq "{`openSessionFiles`:{`openMode`:`foreground`}}".

Definition precedenceExample : platform :=
  examplePlatform [("PI_OPEN_FILE_MODE", "background")]
    [("/home/u/.pi/agent/settings.json", foregroundSettings);
     ("/w/.pi/settings.json", foregroundSettings)].

(** A project settings file whose shortcut is a number. *)
Definition numericShortcut : platform :=
  examplePlatform []
    [("/w/.pi/settings.json", Str.dq "{`openSessionFiles`:{`shortcut`:42}}")].

(** ** The paths of a scan *)

(** What one block contributes to the scan: the normalised path the loop
    body computes for it, or nothing when the body skips the block. *)
Definition blockPath (h : platform) (block : value) : result (option string) :=
  if negb (Js.truthy block) || negb (Js.typeofObject block) then Ok None else
  t ← Js.prop block "type";
  if negb (isToolCallTag t) then Ok None else
  name ← blockName block;
  if negb (Js.isStr name "edit") && negb (Js.isStr name "write") then Ok None else
  args ← blockArgs h block;
  path ← Js.optProp args "path";
  if negb (Js.truthy path) then Ok None else
  text ← Js.toString path;
  Ok (Some (Str.stripLeadingAt text)).

(** The path text the loop body extracts from a block, before it is
    normalised: [String(args.path)] for an edit or write call whose
    arguments hold a path, under whichever of [arguments], [input] and
    [function.arguments] the source reads them; nothing when the body skips
    the block. *)
Definition blockText (h : platform) (block : value) : result (option string) :=
  if negb (Js.truthy block) || negb (Js.typeofObject block) then Ok None else
  t ← Js.prop block "type";
  if negb (isToolCallTag t) then Ok None else
  name ← blockName block;
  if negb (Js.isStr name "edit") && negb (Js.isStr name "write") then Ok None else
  args ← blockArgs h block;
  path ← Js.optProp args "path";
  if negb (Js.truthy path) then Ok None else
  text ← Js.toString path;
  Ok (Some text).

Fixpoint blockTexts (h : platform) (blocks : list value) : result (list string) :=
  match blocks with
  | [] => Ok []
  | b :: bs =>
      t ← blockText h b;
      ts ← blockTexts h bs;
      Ok (option_list t ++ ts)%list
  end.

(** The end of the loop body: a path not yet seen is recorded. *)
Definition note (st : scan) (filePath : string) : scan :=
  if decide (filePath ∈ seen st) then st
  else {| seen := {[filePath]} ∪ seen st; files := files st ++ [filePath] |}.

Fixpoint blockPaths (h : platform) (blocks : list value) : result (list string) :=
  match blocks with
  | [] => Ok []
  | b :: bs =>
      p ← blockPath h b;
      ps ← blockPaths h bs;
      Ok (option_list p ++ ps)%list
  end.

(** The blocks of an entry that the scan visits: the content of an
    assistant message, nothing for any other entry. *)
Definition entryBlocks (entry : value) : result (list value) :=
  t ← Js.prop entry "type";
  if negb (Js.isStr t "message") then Ok [] else
  msg ← Js.prop entry "message";
  if negb (Js.truthy msg) then Ok [] else
  role ← Js.prop msg "role";
  if negb (Js.isStr role "assistant") then Ok [] else
  content ← Js.prop msg "content";
  match content with
  | VArr blocks => Ok blocks
  | _ => Ok []
  end.

(** The normalised paths of the edit and write calls of a log, in the
    order of the scan, repetitions included. *)
Fixpoint scanPaths (h : platform) (entries : list value) : result (list string) :=
  match entries with
  | [] => Ok []
  | e :: es =>
      bs ← entryBlocks e;
      ps ← blockPaths h bs;
      qs ← scanPaths h es;
      Ok (ps ++ qs)%list
  end.

(** The path texts of the edit and write calls of a log as the scan
    extracts them, before they are normalised, in the order of the scan. *)
Fixpoint scanTexts (h : platform) (entries : list value) : result (list string) :=
  match entries with
  | [] => Ok []
  | e :: es =>
      bs ← entryBlocks e;
      ts ← blockTexts h bs;
      us ← scanTexts h es;
      Ok (ts ++ us)%list
  end.

(** The position of the first occurrence of [p] in [ps] (the length of
    [ps] when there is none). *)
Fixpoint firstIndex (p : string) (ps : list string) : nat :=
  match ps with
  | [] => 0
  | q :: ps' => if decide (q = p) then 0 else S (firstIndex p ps')
  end.

(** [fs] lists the distinct elements of [ps], each once, in the order of
    their first occurrences in [ps]. *)
Definition firstSeen (fs ps : list string) : Prop :=
  NoDup fs ∧
  (∀ p, p ∈ fs ↔ p ∈ ps) ∧
  (∀ i j p q, fs !! i = Some p → fs !! j = Some q → i < j →
              firstIndex p ps < firstIndex q ps).

(** The invariant of the scan after the paths [ps]: [seen] is the set of
    the paths in [files], and [files] is [ps] without its repetitions. *)
Definition scanInv (st : scan) (ps : list string) : Prop :=
  seen st = list_to_set (files st) ∧ firstSeen (files st) ps.

(** ** Example inputs *)

Definition plainPlatform : platform := examplePlatform [] [].

(** Repeated edit and write calls on the same paths, interleaved with calls
    on other paths, a read call, and spread over two messages. *)
Definition interleavedLog : context :=
  session
    [assistantMessage
       [toolCall "toolCall" "edit" (VStr "src/a.ts");
        toolCall "tool_use" "write" (VStr "src/b.ts");
        toolCall "toolCall" "read" (VStr "src/r.ts");
        toolCall "tool_call" "edit" (VStr "src/a.ts")];
     VObj [("type", VStr "message");
           ("message", VObj [("role", VStr "user"); ("content", VStr "go on")])];
     assistantMessage
       [toolCall "toolCall" "write" (VStr "src/c.ts");
        toolCall "toolCall" "edit" (VStr "src/b.ts");
        toolCall "toolCall" "write" (VStr "src/a.ts")]].

(** A call whose arguments are not JSON, followed by a well-formed one. *)
Definition malformedLog : context :=
  session
    [assistantMessage
       [functionCall "edit" "{not json";
        toolCall "toolCall" "edit" (VStr "a.ts")]].

(** A scoring for the examples: a key matches when the query occurs in it,
    and a shorter key scores better. *)
Definition substringScore (query key : string) : option Z :=
  if Str.includes key query then Some (- Z.of_nat (String.length key))%Z
  else None.

(** The candidates of the spec's ranking example, built as the picker
    builds them. *)
Definition rankingCandidates : list Candidate :=
  (λ p, {| path := p; search := afterLastSlash p +:+ " " +:+ p |})
    <$> ["src/app.ts"; "src/app.test.ts"; "README.md"].

(** The events that start the external command. *)
Definition isLaunch (e : event) : Prop :=
  match e with
  | Spawn _ _ _ | SpawnSync _ _ _ => True
  | _ => False
  end.

(** A session with two edited files, both on disk when the picker opens;
    the user picks the second, which is gone when the picker resolves. *)
Definition staleContext : context :=
  {| branch :=
       [assistantMessage
          [toolCall "toolCall" "edit" (VStr "/tmp/x/foo.go");
           toolCall "toolCall" "write" (VStr "/tmp/x/bar.go")]];
     ctx_cwd := "/tmp/x" |}.

Definition stalePlatform : platform :=
  examplePlatform [] [("/tmp/x/foo.go", "package x"); ("/tmp/x/bar.go", "package x")].

Definition staleLater : string → fileState :=
  fs (examplePlatform [] [("/tmp/x/foo.go", "package x")]).

Definition pickBar (candidates : list Candidate) : option string :=
  Some "/tmp/x/bar.go".

(** * Further definitions: the rest of the extension *)

(** ** Settings layers *)

(** [agentDir] and [settingsPaths] as [loadSettings] computes them: the
    agent directory from [PI_CODING_AGENT_DIR] or the home directory, then
    the global and the project settings file. *)
Definition agentDir (h : platform) : string :=
  match envTrim h "PI_CODING_AGENT_DIR" with
  | VStr d => if String.eqb d "" then path_join h [homedir h; ".pi"; "agent"] else d
  | _ => path_join h [homedir h; ".pi"; "agent"]
  end.

Definition settingsPaths (h : platform) (cwd : string) : list string :=
  [path_join h [agentDir h; "settings.json"];
   path_join h [cwd; ".pi"; "settings.json"]].

(** What the environment layer gives a field: the trimmed variable when it
    is set and not blank, nothing otherwise. *)
Definition envField (h : platform) (name : string) : value :=
  if Js.truthy (envTrim h name) then envTrim h name else VUndefined.

(** The first layer: what [loadSettings] takes from the environment. *)
Definition envLayer (h : platform) : settings :=
  setIfTruthy "shortcut" (envTrim h "PI_OPEN_FILE_SHORTCUT")
    (setIfTruthy "openMode" (normalizeMode (envTrim h "PI_OPEN_FILE_MODE"))
       (setIfTruthy "openCommand" (envTrim h "PI_OPEN_FILE_COMMAND") [])).

(** The platform with another file system. *)
Definition withFiles (h : platform) (files : string → fileState) : platform :=
  {| env := env h;
     homedir := homedir h;
     fs := files;
     JSON_parse := JSON_parse h;
     path_join := path_join h;
     path_basename := path_basename h |}.

(** A settings path with nothing to merge: no file, a file that cannot be
    read, a text that is not JSON, or JSON with no object (or array) under
    [openSessionFiles]. *)
Definition nothingToMerge (h : platform) (p : string) : Prop :=
  match fs h p with
  | Missing | Unreadable => True
  | Content raw =>
      match JSON_parse h raw with
      | None => True
      | Some parsed =>
          match Js.optProp parsed "openSessionFiles" with
          | Ok direct => Js.typeofObject direct && Js.truthy direct = false
          | Throw _ => True
          end
      end
  end.

(** Examples: a mixed-case shortcut and an unknown mode in the
    environment; settings files that are unusable in four ways; a project
    file with an unknown mode under an environment that asks for the
    background; a global and a project file that both set fields. *)
Definition shoutingEnvironment : platform :=
  examplePlatform
    [("PI_OPEN_FILE_SHORTCUT", "  Ctrl+Shift+O "); ("PI_OPEN_FILE_MODE", "Background");
     ("PI_OPEN_FILE_COMMAND", " code -g {file} ")] [].

Definition unusableFiles : platform :=
  examplePlatform [("PI_OPEN_FILE_MODE", "background")]
    [("/home/u/.pi/agent/settings.json", "{not json");
     ("/w/.pi/settings.json", Str.dq "{`openSessionFiles`:`vim`}")].

Definition unknownProjectMode : platform :=
  examplePlatform [("PI_OPEN_FILE_MODE", "background")]
    [("/w/.pi/settings.json", Str.dq "{`openSessionFiles`:{`openMode`:`Background`}}")].

Definition layeredFiles : platform :=
  examplePlatform [("PI_OPEN_FILE_COMMAND", "nano {file}")]
    [("/home/u/.pi/agent/settings.json",
      Str.dq "{`openSessionFiles`:{`openCommand`:`vim {file}`,`shortcut`:`Alt+P`}}");
     ("/w/.pi/settings.json",
      Str.dq "{`openSessionFiles`:{`openMode`:`background`}}")].

(** ** Settings for the command line *)

(** Whether the settings give no command: [openCommand] is absent, [null]
    or a blank string. *)
Definition noOpenCommand (st : settings) : Prop :=
  match Js.lookupField "openCommand" st with
  | VUndefined | VNull => True
  | VStr s => Str.trim s = ""
  | _ => False
  end.

(** The command of the README's tmux example, without its inner shell
    expansion. *)
Definition tmuxSettings : settings :=
  [("openCommand", VStr "tmux split-window -h -c {cwd} nvim {file}");
   ("openMode", VStr "background")].

(** ** More session entries *)

(** A message entry of any role. *)
Definition messageEntry (role : string) (content : value) : value :=
  VObj [("type", VStr "message");
        ("message", VObj [("role", VStr role); ("content", content)])].

(** A tool-call block that carries its arguments under [input]:
    [{type: "tool_use", name, input: {path}}]. *)
Definition toolUse (name : string) (p : value) : value :=
  VObj [("type", VStr "tool_use"); ("name", VStr name); ("input", VObj [("path", p)])].

(** A tool-call block with both [arguments] and [input]. *)
Definition toolCallBoth (tag name : string) (arguments input : value) : value :=
  VObj [("type", VStr tag); ("name", VStr name);
        ("arguments", arguments); ("input", input)].

(** A log with a read call, a user message and a custom entry among the
    edits. *)
Definition noisyLog : list value :=
  [messageEntry "user" (VArr [toolCall "toolCall" "edit" (VStr "user.ts")]);
   assistantMessage
     [toolCall "toolCall" "edit" (VStr "a.ts");
      toolCall "toolCall" "read" (VStr "r.ts");
      toolCall "toolCall" "write" (VStr "b.ts")];
   VObj [("type", VStr "compaction"); ("summary", VStr "...")]].

(** Calls whose paths carry the [@] marker, in the three shapes and with
    paths that are not strings: an array and a number. *)
Definition markedLog : list value :=
  [assistantMessage
     [toolCall "toolCall" "edit" (VStr "@@foo.ts");
      toolUse "write" (VStr "@lib/x.ts")];
   assistantMessage
     [functionCall "edit" (Str.dq "{`path`: `@y.ts`}");
      toolCall "tool_call" "write" (VArr [VStr "@z.ts"]);
      toolCall "toolCall" "edit" (VStr "plain.ts");
      toolUse "edit" (VStr "@y.ts");
      toolCall "toolCall" "edit" (VNum (integer 7))]].

(** A call on [@foo.ts] and a call on [foo.ts] in different messages and
    different shapes, with other calls and entries around them. *)
Definition twiceLog : list value :=
  [messageEntry "user" (VStr "start");
   assistantMessage
     [toolCall "toolCall" "write" (VStr "a.ts");
      toolUse "edit" (VStr "@foo.ts");
      toolCall "toolCall" "write" (VStr "bar.ts")];
   messageEntry "user" (VStr "again");
   assistantMessage [functionCall "write" (Str.dq "{`path`: `foo.ts`}")]].

(** ** Counting launches *)

#[export] Instance isLaunch_dec (e : event) : Decision (isLaunch e).
Proof. destruct e; simpl; apply _. Defined.

(** The number of processes a trace starts. *)
Definition launches (t : list event) : nat := length (filter isLaunch t).

(** Examples for the flow: a session without edits on a platform whose
    settings cannot be loaded; a session whose files are gone; a platform
    in background mode; one whose settings give a number as command. *)
Definition emptyContext : context := {| branch := []; ctx_cwd := "/w" |}.

(** A session whose one edited file is not on disk. *)
Definition goneContext : context :=
  session [assistantMessage [toolCall "toolCall" "edit" (VStr "gone.ts")]].

Definition backgroundPlatform : platform :=
  examplePlatform [("PI_OPEN_FILE_MODE", "background"); ("PI_OPEN_FILE_COMMAND", "code")]
    [("/tmp/x/foo.go", "package x"); ("/tmp/x/bar.go", "package x")].

Definition numericCommand : platform :=
  examplePlatform []
    [("/tmp/x/foo.go", "package x"); ("/tmp/x/bar.go", "package x");
     ("/tmp/x/.pi/settings.json", Str.dq "{`openSessionFiles`:{`openCommand`:42}}")].

Definition pickNothing (candidates : list Candidate) : option string := None.

(** ** The picker view *)

(** An entry of the selection list. *)
Record SelectItem : Type := {
  item_value : string;
  item_label : string;
}.

Definition toSelectItems (candidates : list Candidate) : list SelectItem :=
  (λ c, {| item_value := path c; item_label := path c |}) <$> candidates.

(** The selection list of the UI toolkit: the items and the number of rows
    it was built with, and its own state, the highlighted row.  A list
    built by [new SelectList] highlights its first row. *)
Record SelectList : Type := {
  list_items : list SelectItem;
  list_maxVisible : nat;
  list_selectedIndex : nat;
}.

(** What the view takes from the UI toolkit: the two key tests
    [matchesKey(data, Key.backspace)] and [matchesKey(data, Key.ctrl("u"))],
    and the row the list highlights after its own [handleInput] was given
    a key. *)
Record keymap : Type := {
  isBackspace : string → bool;
  isCtrlU : string → bool;
  moveHighlight : SelectList → string → nat;
}.

(** Modelled from the spec: the list widget belongs to the UI toolkit,
    which is not part of the sources.  Following the spec, a key that the
    view passes on to the list moves the highlighted entry, how is left
    to the toolkit ([moveHighlight]); the items and the rows of the list
    stay as they were built. *)
Definition listHandleInput (keys : keymap) (l : SelectList) (data : string)
  : SelectList :=
  {| list_items := list_items l;
     list_maxVisible := list_maxVisible l;
     list_selectedIndex := moveHighlight keys l data |}.

(** The state of the view: the filter, the text of the filter line and the
    current list. *)
Record pickerView : Type := {
  view_filter : string;
  view_filterLine : string;
  view_list : SelectList;
}.

(** [s.slice(0, -1)] *)
Fixpoint dropLast (s : string) : string :=
  match s with
  | EmptyString => EmptyString
  | String c EmptyString => EmptyString
  | String c r => String c (dropLast r)
  end.

(** [c >= " " && c !== DEL] on one character. *)
Definition printableChar (c : ascii) : bool :=
  (32 <=? nat_of_ascii c)%nat && negb (nat_of_ascii c =? 127)%nat.

(** [data.length === 1 && data >= " " && data !== "\x7f"] *)
Definition isPrintable (data : string) : bool :=
  match data with
  | String c EmptyString => printableChar c
  | _ => false
  end.

Section PickerView.
Variable keys : keymap.
Variable fuzzyScore : string → string → option Z.
Variable candidates : list Candidate.

(** [buildList]: the ranked candidates as items, in a new list of
    [Math.min(items.length || 1, 12)] rows. *)
Definition buildList (filterText : string) : SelectList :=
  let ranked := rankCandidates fuzzyScore candidates filterText in
  let items := toSelectItems ranked in
  {| list_items := items;
     list_maxVisible :=
       Nat.min (if (length items =? 0)%nat then 1 else length items) 12;
     list_selectedIndex := 0 |}.

(** The text [updateFilterLine] sets (the theme's colouring apart). *)
Definition filterLineText (filterText : string) : string :=
  " filter: " +:+ (if String.eqb filterText "" then "(empty)" else filterText).

(** The view for a filter, as [buildList] and [updateFilterLine] leave it. *)
Definition viewFor (filterText : string) : pickerView :=
  {| view_filter := filterText;
     view_filterLine := filterLineText filterText;
     view_list := buildList filterText |}.

(** The view when the picker opens: [filter = ""]. *)
Definition initialView : pickerView := viewFor "".

(** [handleInput]: the new view, and the input when it was passed on to
    the list's own [handleInput].  The three filter edits replace the list
    by a new one; any other input goes to the current list, which keeps
    its items and moves its highlight. *)
Definition handleInput (v : pickerView) (data : string)
  : pickerView * option string :=
  if isBackspace keys data then (viewFor (dropLast (view_filter v)), None)
  else if isCtrlU keys data then (viewFor "", None)
  else if isPrintable data then (viewFor (view_filter v +:+ data), None)
  else ({| view_filter := view_filter v;
           view_filterLine := view_filterLine v;
           view_list := listHandleInput keys (view_list v) data |},
        Some data).

(** The view after a sequence of inputs. *)
Definition afterInputs (inputs : list string) : pickerView :=
  fold_left (λ v data, (handleInput v data).1) inputs initialView.

End PickerView.

(** The arrow keys as the terminal sends them: ESC [ A and ESC [ B. *)
Definition arrowUp : string := String "027"%char "[A".
Definition arrowDown : string := String "027"%char "[B".

(** A key map for the examples: DEL and BS are backspace, NAK is Ctrl-U,
    and the arrows move the highlight by one row, wrapping at the ends. *)
Definition exampleKeys : keymap :=
  {| isBackspace := λ data,
       String.eqb data (String "127"%char "") || String.eqb data (String "008"%char "");
     isCtrlU := λ data, String.eqb data (String "021"%char "");
     moveHighlight := λ l data,
       let n := length (list_items l) in
       let i := list_selectedIndex l in
       if String.eqb data arrowDown then (if (S i <? n)%nat then S i else 0)
       else if String.eqb data arrowUp then (if (i =? 0)%nat then pred n else pred i)
       else i |}.

(** ** Activation *)

(** What the extension registers with the host when it is loaded. *)
Inductive registration : Type :=
| RegisterShortcut (shortcut : value) (description : string)
| RegisterCommand (name description : string).

(** The default export: the settings are loaded for the directory of the
    process, and the shortcut and the [open-file] command are
    registered. *)
Definition activate (h : platform) (processCwd : string)
  : result (list registration) :=
  startupSettings ← loadSettings h processCwd;
  let shortcut := Js.lookupField "shortcut" startupSettings in
  let shortcut := if Js.truthy shortcut then shortcut else VStr "alt+o" in
  Ok [RegisterShortcut shortcut
        "Pick and open a file edited by the agent this session";
      RegisterCommand "open-file"
        "Pick and open a file edited by the agent this session"].

(** The invariant of the view: its filter line and the items and rows of
    its list are those built for its filter, wherever the highlight of the
    list is, and the filter holds printable characters only. *)
Definition viewInv (fuzzyScore : string → string → option Z)
    (candidates : list Candidate) (v : pickerView) : Prop :=
  view_filterLine v = filterLineText (view_filter v) ∧
  list_items (view_list v)
    = list_items (buildList fuzzyScore candidates (view_filter v)) ∧
  list_maxVisible (view_list v)
    = list_maxVisible (buildList fuzzyScore candidates (view_filter v)) ∧
  Forall (λ c, printableChar c = true) (list_ascii_of_string (view_filter v)).

(** * Properties *)

Lemma forOf_app {A S : Type} (body : S → A → result S) st l1 l2 :
  forOf body st (l1 ++ l2) = st' ← forOf body st l1; forOf body st' l2.
Proof.
  revert st. induction l1 as [|x l1 IH]; intros st; simpl; [done|].
  destruct (body st x); simpl; auto.
Qed.

(** ** Property lists *)

Section Fields.
Implicit Types (k : string) (v : value) (fs : list (string * value)).

Lemma lookupField_setField_eq k v fs :
  Js.lookupField k (Js.setField k v fs) = v.
Proof.
  induction fs as [|[k' v'] fs IH]; simpl.
  - by rewrite String.eqb_refl.
  - destruct (String.eqb k' k) eqn:E; simpl.
    + by rewrite String.eqb_refl.
    + by rewrite E.
Qed.

Lemma lookupField_setField_ne k k' v fs :
  k ≠ k' → Js.lookupField k (Js.setField k' v fs) = Js.lookupField k fs.
Proof.
  intros Hne. induction fs as [|[k1 v1] fs IH]; simpl.
  - destruct (String.eqb k' k) eqn:E; [|done].
    apply String.eqb_eq in E. congruence.
  - destruct (String.eqb k1 k') eqn:E1; simpl.
    + apply String.eqb_eq in E1. subst k1.
      destruct (String.eqb k' k) eqn:E; [|done].
      apply String.eqb_eq in E. congruence.
    + by rewrite IH.
Qed.

Lemma lookupField_setField k k' v fs :
  Js.lookupField k (Js.setField k' v fs)
  = if String.eqb k' k then v else Js.lookupField k fs.
Proof.
  destruct (String.eqb k' k) eqn:E.
  - apply String.eqb_eq in E. subst. apply lookupField_setField_eq.
  - apply String.eqb_neq in E. by apply lookupField_setField_ne.
Qed.

(** Copying the properties of an object whose keys are distinct: the
    copied value wins where the object has the key. *)
Lemma lookupField_spread_obj k fs (acc : settings) :
  NoDup fs.*1 →
  Js.lookupField k (Js.spread acc (VObj fs))
  = if Js.hasField k fs then Js.lookupField k fs else Js.lookupField k acc.
Proof.
  unfold Js.spread. simpl. revert acc.
  induction fs as [|[k1 v1] fs IH]; intros acc Hnd; simpl; [done|].
  apply NoDup_cons in Hnd as [Hk1 Hnd].
  rewrite IH by done. unfold Js.hasField in *. simpl.
  destruct (String.eqb k1 k) eqn:E; simpl.
  - apply String.eqb_eq in E. subst k1.
    destruct (existsb _ fs) eqn:Ex.
    + exfalso. apply Hk1. apply existsb_exists in Ex as [[k2 v2] [Hin Heq]].
      simpl in Heq. apply String.eqb_eq in Heq. subst k2.
      apply list_elem_of_fmap. exists (k, v2). split; [done|].
      by apply list_elem_of_In.
    + apply lookupField_setField_eq.
  - destruct (existsb _ fs); [done|].
    apply String.eqb_neq in E. by apply lookupField_setField_ne.
Qed.

End Fields.

(** ** Shell escaping *)


Lemma replaceAllFrom_quote before s :
  Str.replaceAllFrom "'" quoteReplacement before 0 s = escapeQuotes s.
Proof.
  revert before. induction s as [|c r IH]; intros before; [done|].
  destruct (Ascii.eqb_spec "'"%char c) as [<-|Hne].
  - simpl. by rewrite IH.
  - cbn [Str.replaceAllFrom Str.startsWith escapeQuotes].
    assert (Ascii.eqb c "'" = false) as E1 by (apply Ascii.eqb_neq; congruence).
    apply Ascii.eqb_neq in Hne. rewrite Hne, E1. cbn [andb]. by rewrite IH.
Qed.

Lemma shellEscape_chars s : shellEscape s = "'" +:+ escapeQuotes s +:+ "'".
Proof. unfold shellEscape, Str.replaceAll. by rewrite replaceAllFrom_quote. Qed.

(** C3. [shellEscape] wraps its argument in single quotes, but the text it
    puts in place of an embedded single quote is double quote, single
    quote, double quote, single quote: the single quote that should close
    the quoting first is missing.  For [it's.ts] the result is
    ['it"'"'s.ts'] and not the POSIX escaping ['it'"'"'s.ts'] (in the
    statement a backquote stands for a double quote). *)
Theorem shellEscape_its_ts :
  shellEscape "it's.ts" = Str.dq "'it`'`'s.ts'" ∧
  shellEscape "it's.ts" ≠ Str.dq "'it'`'`'s.ts'".
Proof. split; [reflexivity | intros H; vm_compute in H; discriminate H]. Qed.

(** ** The command line *)

(** The two commands of the spec: the placeholder replaced, and the path
    appended to a template without placeholder. *)
Lemma buildOpenCommand_examples h cwd :
  buildOpenCommand h "/tmp/a b.ts" cwd [("openCommand", VStr "code {file}")]
    = Ok "code '/tmp/a b.ts'" ∧
  buildOpenCommand h "/tmp/a b.ts" cwd [("openCommand", VStr "code")]
    = Ok "code '/tmp/a b.ts'".
Proof. split; reflexivity. Qed.

(** A template that does not mention the file placeholder gets the escaped
    path appended after a space. *)
Lemma buildOpenCommand_appends h filePath cwd (st : settings) s :
  Js.lookupField "openCommand" st = VStr s →
  Str.trim s ≠ "" →
  Str.includes (Str.trim s) "{file}" = false →
  ∃ command,
    buildOpenCommand h filePath cwd st
    = Ok (command +:+ " " +:+ shellEscape filePath).
Proof.
  intros Hs Hne Hinc. unfold buildOpenCommand. rewrite Hs. simpl.
  destruct (String.eqb (Str.trim s) "") eqn:E.
  - apply String.eqb_eq in E. done.
  - rewrite Hinc. eauto.
Qed.

(** A replacement text without dollar sign is inserted as it is. *)
Lemma getSubstitution_literal matched before after repl :
  Str.includes repl "$" = false →
  Str.getSubstitution matched before after repl = repl.
Proof.
  induction repl as [|c r IH]; [done|].
  cbn [Str.includes Str.startsWith]. intros H.
  apply orb_false_iff in H as [Hc Hr]. rewrite andb_true_r in Hc.
  assert (Str.getSubstitution matched before after (String c r)
          = String c (Str.getSubstitution matched before after r)) as ->.
  { destruct c as [[] [] [] [] [] [] [] []]; try done. }
  by rewrite IH.
Qed.

(** C5. [buildOpenCommand] passes the escaped path to [replaceAll] as the
    replacement text, where [$$], [$&], [$`] and [$'] are patterns: a path
    with two dollar signs reaches the command with one.  With the template
    [code {file}] and the path [/tmp/Foo$$Bar.java] the command is
    [code '/tmp/Foo$Bar.java'], which is not the template with the
    placeholder replaced by the escaped path. *)
Theorem buildOpenCommand_dollar_path h cwd :
  buildOpenCommand h "/tmp/Foo$$Bar.java" cwd [("openCommand", VStr "code {file}")]
    = Ok "code '/tmp/Foo$Bar.java'" ∧
  buildOpenCommand h "/tmp/Foo$$Bar.java" cwd [("openCommand", VStr "code {file}")]
    ≠ Ok ("code " +:+ shellEscape "/tmp/Foo$$Bar.java").
Proof. split; [reflexivity | intros H; vm_compute in H; discriminate H]. Qed.

(** ** Settings *)

Lemma lookupField_hasField k (fs : list (string * value)) :
  Js.lookupField k fs ≠ VUndefined → Js.hasField k fs = true.
Proof.
  unfold Js.hasField. induction fs as [|[k1 v1] fs IH]; simpl; [done|].
  destruct (String.eqb k1 k); simpl; auto.
Qed.

(** A settings file that holds an object under [openSessionFiles] is
    copied over what was merged before it. *)
Lemma mergeSettingsFile_object h (merged : settings) p raw top own :
  fs h p = Content raw →
  JSON_parse h raw = Some (VObj top) →
  Js.lookupField "openSessionFiles" top = VObj own →
  mergeSettingsFile h merged p = Js.spread merged (VObj own).
Proof.
  intros Hfile Hparse Hfs.
  unfold mergeSettingsFile, existsSync, readFileSync, jsonParse.
  rewrite Hfile, Hparse. simpl. by rewrite Hfs.
Qed.

(** C1. The settings files are merged over the environment layer, the
    project file last: whatever [PI_OPEN_FILE_MODE] and the global file
    say, a valid [openMode] of the project settings file is the effective
    mode. *)
Theorem loadSettings_project_file_beats_env h cwd raw top own m st :
  fs h (path_join h [cwd; ".pi"; "settings.json"]) = Content raw →
  JSON_parse h raw = Some (VObj top) →
  Js.lookupField "openSessionFiles" top = VObj own →
  NoDup own.*1 →
  Js.lookupField "openMode" own = VStr m →
  m = "foreground" ∨ m = "background" →
  loadSettings h cwd = Ok st →
  Js.lookupField "openMode" st = VStr m.
Proof.
  intros Hfile Hparse Hfs Hnd Hm Hvalid Hload.
  unfold loadSettings in Hload. cbn [fold_left] in Hload.
  rewrite (mergeSettingsFile_object _ _ _ _ _ _ Hfile Hparse Hfs) in Hload.
  set (merged := Js.spread _ (VObj own)) in Hload.
  assert (Js.lookupField "openMode" merged = VStr m) as Hmode.
  { unfold merged. rewrite lookupField_spread_obj by done.
    rewrite lookupField_hasField; [done|]. by rewrite Hm. }
  rewrite Hmode in Hload.
  assert (normalizeMode (VStr m) = VStr m) as Hnorm.
  { by destruct Hvalid as [-> | ->]. }
  rewrite Hnorm in Hload. cbn [Js.nullish] in Hload.
  destruct (if Js.truthy _ then _ else _) in Hload; try discriminate.
  injection Hload as <-.
  rewrite lookupField_setField_ne by done.
  apply lookupField_setField_eq.
Qed.


Lemma loadSettings_precedence_example :
  env precedenceExample "PI_OPEN_FILE_MODE" = Some "background" ∧
  fs precedenceExample "/home/u/.pi/agent/settings.json" = Content foregroundSettings ∧
  loadSettings precedenceExample "/w"
    = Ok [("openMode", VStr "foreground"); ("shortcut", VStr "alt+o")] ∧
  Js.lookupField "openMode" [("openMode", VStr "foreground"); ("shortcut", VStr "alt+o")]
    = VStr "foreground".
Proof.
  split; [reflexivity|]. split; [reflexivity|]. split; [reflexivity|].
  apply (loadSettings_project_file_beats_env precedenceExample "/w"
           foregroundSettings
           [("openSessionFiles", VObj [("openMode", VStr "foreground")])]
           [("openMode", VStr "foreground")] "foreground").
  - reflexivity.
  - reflexivity.
  - reflexivity.
  - compute_done.
  - reflexivity.
  - by left.
  - reflexivity.
Defined.

Lemma isStr_true v s : Js.isStr v s = true → v = VStr s.
Proof.
  destruct v; simpl; try discriminate. intros H. by apply String.eqb_eq in H as ->.
Qed.

Lemma normalizeMode_cases v :
  normalizeMode v = VStr "foreground" ∨ normalizeMode v = VStr "background" ∨
  normalizeMode v = VUndefined.
Proof.
  unfold normalizeMode.
  destruct (Js.isStr v "foreground") eqn:E1; simpl.
  { apply isStr_true in E1. auto. }
  destruct (Js.isStr v "background") eqn:E2; simpl.
  { apply isStr_true in E2. auto. }
  auto.
Qed.

Lemma lowerChar_idem c : Str.lowerChar (Str.lowerChar c) = Str.lowerChar c.
Proof. destruct c as [[] [] [] [] [] [] [] []]; reflexivity. Qed.

Lemma toLowerCase_idem s : Str.toLowerCase (Str.toLowerCase s) = Str.toLowerCase s.
Proof. induction s as [|c r IH]; simpl; [done|]. by rewrite lowerChar_idem, IH. Qed.

Lemma toLowerCase_empty s : Str.toLowerCase s = "" → s = "".
Proof. by destruct s. Qed.

(** Whenever [loadSettings] returns, the mode is one of the two modes and
    the shortcut is a non-empty lower-case string. *)
Lemma loadSettings_returned_wellformed h cwd st :
  loadSettings h cwd = Ok st →
  (Js.lookupField "openMode" st = VStr "foreground" ∨
   Js.lookupField "openMode" st = VStr "background") ∧
  ∃ s, Js.lookupField "shortcut" st = VStr s ∧ s ≠ "" ∧ Str.toLowerCase s = s.
Proof.
  unfold loadSettings. cbn [fold_left].
  set (merged := mergeSettingsFile h _ _).
  rewrite (lookupField_setField_ne "shortcut" "openMode") by done.
  destruct (if Js.truthy (Js.lookupField "shortcut" merged)
            then Js.lookupField "shortcut" merged else VStr "alt+o")
    as [| | | |s| |] eqn:Hshort; try discriminate.
  intros [= <-]. split.
  - rewrite lookupField_setField_ne by done. rewrite lookupField_setField_eq.
    destruct (normalizeMode_cases (Js.lookupField "openMode" merged))
      as [-> | [-> | ->]]; simpl; auto.
  - exists (Str.toLowerCase s). rewrite lookupField_setField_eq.
    split; [done|]. split; [|apply toLowerCase_idem].
    intros He. apply toLowerCase_empty in He. subst s.
    destruct (Js.truthy (Js.lookupField "shortcut" merged)) eqn:Ht.
    + rewrite Hshort in Ht. discriminate.
    + discriminate.
Qed.

(** C9. A settings file can supply a shortcut that is not a string, and
    [loadSettings] calls [toLowerCase] on it: when the project settings
    file gives [shortcut] a true value that is no string (a number, [true],
    an array, an object), [loadSettings] raises a [TypeError] and returns
    no settings. *)
Theorem loadSettings_shortcut_not_a_string h cwd raw top own v :
  fs h (path_join h [cwd; ".pi"; "settings.json"]) = Content raw →
  JSON_parse h raw = Some (VObj top) →
  Js.lookupField "openSessionFiles" top = VObj own →
  NoDup own.*1 →
  Js.lookupField "shortcut" own = v →
  Js.truthy v = true →
  (∀ s, v ≠ VStr s) →
  loadSettings h cwd = Throw TypeError.
Proof.
  intros Hfile Hparse Hown Hnd Hv Htrue Hnostr.
  unfold loadSettings. cbn [fold_left].
  rewrite (mergeSettingsFile_object _ _ _ _ _ _ Hfile Hparse Hown).
  set (merged := Js.spread _ (VObj own)).
  rewrite (lookupField_setField_ne "shortcut" "openMode") by done.
  assert (Js.lookupField "shortcut" merged = v) as ->.
  { unfold merged. rewrite lookupField_spread_obj by done.
    rewrite lookupField_hasField; [done|]. rewrite Hv. by destruct v. }
  rewrite Htrue. destruct v; try done. by destruct (Hnostr s).
Qed.


Lemma loadSettings_numeric_shortcut :
  fs numericShortcut "/w/.pi/settings.json"
    = Content (Str.dq "{`openSessionFiles`:{`shortcut`:42}}") ∧
  loadSettings numericShortcut "/w" = Throw TypeError.
Proof.
  split; [reflexivity|].
  apply (loadSettings_shortcut_not_a_string numericShortcut "/w"
           (Str.dq "{`openSessionFiles`:{`shortcut`:42}}")
           [("openSessionFiles", VObj [("shortcut", VNum (integer 42))])]
           [("shortcut", VNum (integer 42))] (VNum (integer 42))).
  - reflexivity.
  - reflexivity.
  - reflexivity.
  - compute_done.
  - reflexivity.
  - reflexivity.
  - intros s. discriminate.
Defined.

(** ** The scan of the session log *)

Lemma visitBlock_blockPath h st block :
  visitBlock h st block
  = p ← blockPath h block; Ok (from_option (note st) st p).
Proof.
  unfold visitBlock, blockPath.
  destruct (negb (Js.truthy block) || negb (Js.typeofObject block)); [done|].
  destruct (Js.prop block "type") as [t|]; [|done]. simpl.
  destruct (negb (isToolCallTag t)); [done|].
  destruct (blockName block) as [name|]; [|done]. simpl.
  destruct (negb (Js.isStr name "edit") && negb (Js.isStr name "write")); [done|].
  destruct (blockArgs h block) as [args|]; [|done]. simpl.
  destruct (Js.optProp args "path") as [path|]; [|done]. simpl.
  destruct (negb (Js.truthy path)); [done|].
  destruct (Js.toString path) as [text|]; [|done]. simpl.
  unfold note. by destruct (decide _).
Qed.

Lemma fold_note_None st (p : option string) :
  from_option (note st) st p = fold_left note (option_list p) st.
Proof. by destruct p. Qed.

Lemma forOf_visitBlock h st blocks :
  forOf (visitBlock h) st blocks
  = ps ← blockPaths h blocks; Ok (fold_left note ps st).
Proof.
  revert st. induction blocks as [|b bs IH]; intros st; [done|].
  simpl. rewrite visitBlock_blockPath.
  destruct (blockPath h b) as [p|]; [|done]. simpl.
  rewrite IH. destruct (blockPaths h bs) as [ps|]; [|done]. simpl.
  by rewrite fold_left_app, fold_note_None.
Qed.

Lemma visitEntry_entryBlocks h st entry :
  visitEntry h st entry
  = bs ← entryBlocks entry; ps ← blockPaths h bs; Ok (fold_left note ps st).
Proof.
  unfold visitEntry, entryBlocks.
  destruct (Js.prop entry "type") as [t|]; [|done]. simpl.
  destruct (negb (Js.isStr t "message")); [done|].
  destruct (Js.prop entry "message") as [msg|]; [|done]. simpl.
  destruct (negb (Js.truthy msg)); [done|].
  destruct (Js.prop msg "role") as [role|]; [|done]. simpl.
  destruct (negb (Js.isStr role "assistant")); [done|].
  destruct (Js.prop msg "content") as [content|]; [|done]. simpl.
  destruct content; try done. apply forOf_visitBlock.
Qed.

Lemma forOf_visitEntry h st entries :
  forOf (visitEntry h) st entries
  = ps ← scanPaths h entries; Ok (fold_left note ps st).
Proof.
  revert st. induction entries as [|e es IH]; intros st; [done|].
  simpl. rewrite visitEntry_entryBlocks.
  destruct (entryBlocks e) as [bs|]; [|done]. simpl.
  destruct (blockPaths h bs) as [ps|]; [|done]. simpl.
  rewrite IH. destruct (scanPaths h es) as [qs|]; [|done]. simpl.
  by rewrite fold_left_app.
Qed.

(** The extractor is the scan followed by the recording of each path. *)
Lemma getSessionEditedFiles_scanPaths h ctx :
  getSessionEditedFiles h ctx
  = ps ← scanPaths h (branch ctx);
    Ok (files (fold_left note ps {| seen := ∅; files := [] |})).
Proof.
  unfold getSessionEditedFiles. rewrite forOf_visitEntry.
  by destruct (scanPaths h (branch ctx)).
Qed.

Lemma firstIndex_lt p ps : p ∈ ps → firstIndex p ps < length ps.
Proof.
  induction ps as [|q ps IH]; intros Hin; [by apply elem_of_nil in Hin|].
  simpl. destruct (decide (q = p)); [lia|].
  apply elem_of_cons in Hin as [->|Hin]; [done|]. specialize (IH Hin). lia.
Qed.

Lemma firstIndex_app_in p ps l :
  p ∈ ps → firstIndex p (ps ++ l)%list = firstIndex p ps.
Proof.
  induction ps as [|q ps IH]; intros Hin; [by apply elem_of_nil in Hin|].
  simpl. destruct (decide (q = p)); [done|].
  apply elem_of_cons in Hin as [->|Hin]; [done|]. by rewrite IH.
Qed.

Lemma firstIndex_app_notin p ps l :
  p ∉ ps → firstIndex p (ps ++ l)%list = length ps + firstIndex p l.
Proof.
  induction ps as [|q ps IH]; intros Hnin; [done|].
  simpl. apply not_elem_of_cons in Hnin as [Hne Hnin].
  destruct (decide (q = p)); [congruence|]. by rewrite IH.
Qed.

Lemma scanInv_init : scanInv {| seen := ∅; files := [] |} [].
Proof.
  split; [done|]. split; [constructor|]. split; [done|].
  intros i j p q Hi. simpl in Hi. by rewrite lookup_nil in Hi.
Qed.

(** Recording one more path keeps the invariant. *)
Lemma note_inv st ps f : scanInv st ps → scanInv (note st f) (ps ++ [f])%list.
Proof.
  intros [Hseen (Hnd & Hmem & Hord)]. unfold note.
  destruct (decide (f ∈ seen st)) as [Hin|Hnin].
  - assert (f ∈ files st) as Hf
      by (rewrite Hseen in Hin; by apply elem_of_list_to_set in Hin).
    split; [done|]. split; [done|]. split.
    + intros p. rewrite elem_of_app, list_elem_of_singleton, <- Hmem.
      split; [auto|]. intros [?| ->]; done.
    + intros i j p q Hi Hj Hij.
      rewrite !firstIndex_app_in; [by eapply Hord| |].
      * apply Hmem. by eapply list_elem_of_lookup_2.
      * apply Hmem. by eapply list_elem_of_lookup_2.
  - assert (f ∉ files st) as Hf
      by (rewrite Hseen in Hnin; by rewrite elem_of_list_to_set in Hnin).
    assert (f ∉ ps) as Hps by (by rewrite <- Hmem).
    split; simpl.
    { rewrite Hseen, list_to_set_app_L. simpl.
      rewrite (right_id_L ∅ (∪)). apply (comm_L (∪)). }
    split.
    { apply NoDup_app. split; [done|]. split; [|apply NoDup_singleton].
      intros x Hx ->%list_elem_of_singleton. done. }
    split.
    { intros p. rewrite !elem_of_app, Hmem. done. }
    intros i j p q Hi Hj Hij.
    assert (p ∈ ps) as Hp.
    { apply Hmem. apply lookup_lt_Some in Hj. rewrite length_app in Hj.
      simpl in Hj. rewrite lookup_app_l in Hi by lia.
      by eapply list_elem_of_lookup_2. }
    rewrite (firstIndex_app_in p) by done.
    destruct (decide (j < length (files st))) as [Hlt|Hge].
    + rewrite lookup_app_l in Hi by lia. rewrite lookup_app_l in Hj by lia.
      rewrite firstIndex_app_in; [by eapply Hord|].
      apply Hmem. by eapply list_elem_of_lookup_2.
    + rewrite lookup_app_r in Hj by lia.
      apply list_lookup_singleton_Some in Hj as [_ <-].
      rewrite firstIndex_app_notin by done.
      apply firstIndex_lt in Hp. lia.
Qed.

Lemma fold_note_inv ps st pre :
  scanInv st pre → scanInv (fold_left note ps st) (pre ++ ps)%list.
Proof.
  revert st pre. induction ps as [|f ps IH]; intros st pre Hinv; simpl.
  - by rewrite app_nil_r.
  - replace (pre ++ f :: ps)%list with ((pre ++ [f]) ++ ps)%list
      by (by rewrite <- app_assoc).
    apply IH. by apply note_inv.
Qed.

(** C4. Whatever the session log, the list [getSessionEditedFiles]
    returns has no repetition, holds exactly the paths of the scan (the
    normalised paths of the edit and write calls, in scan order), and
    lists them in the order of their first occurrences in the scan. *)
Theorem getSessionEditedFiles_first_seen h ctx fs :
  getSessionEditedFiles h ctx = Ok fs →
  ∃ ps, scanPaths h (branch ctx) = Ok ps ∧
        NoDup fs ∧
        (∀ p, p ∈ fs ↔ p ∈ ps) ∧
        (∀ i j p q, fs !! i = Some p → fs !! j = Some q → i < j →
                    firstIndex p ps < firstIndex q ps).
Proof.
  rewrite getSessionEditedFiles_scanPaths.
  destruct (scanPaths h (branch ctx)) as [ps|]; [|done].
  intros [= <-]. exists ps. split; [done|].
  pose proof (fold_note_inv ps _ [] scanInv_init) as [_ Hfirst].
  exact Hfirst.
Qed.

(** The extractor raises an exception exactly when the scan does. *)
Lemma getSessionEditedFiles_throws h ctx e :
  getSessionEditedFiles h ctx = Throw e ↔ scanPaths h (branch ctx) = Throw e.
Proof.
  rewrite getSessionEditedFiles_scanPaths.
  destruct (scanPaths h (branch ctx)); simpl; split; congruence.
Qed.

Lemma getSessionEditedFiles_interleaved :
  getSessionEditedFiles plainPlatform interleavedLog
    = Ok ["src/a.ts"; "src/b.ts"; "src/c.ts"] ∧
  ∃ ps, scanPaths plainPlatform (branch interleavedLog) = Ok ps ∧
        NoDup ["src/a.ts"; "src/b.ts"; "src/c.ts"] ∧
        (∀ p, p ∈ ["src/a.ts"; "src/b.ts"; "src/c.ts"] ↔ p ∈ ps) ∧
        (∀ i j p q,
           ["src/a.ts"; "src/b.ts"; "src/c.ts"] !! i = Some p →
           ["src/a.ts"; "src/b.ts"; "src/c.ts"] !! j = Some q → i < j →
           firstIndex p ps < firstIndex q ps).
Proof.
  split; [vm_compute; reflexivity|].
  apply (getSessionEditedFiles_first_seen plainPlatform interleavedLog).
  vm_compute; reflexivity.
Defined.

(** *** Single blocks *)

Lemma blockPath_toolCall h tag name p :
  isToolCallTag (VStr tag) = true →
  name = "edit" ∨ name = "write" →
  p ≠ "" →
  blockPath h (toolCall tag name (VStr p)) = Ok (Some (Str.stripLeadingAt p)).
Proof.
  intros Htag Hname Hp. unfold blockPath, toolCall.
  cbn [Js.truthy Js.typeofObject negb orb Js.prop Js.lookupField String.eqb
       Ascii.eqb Bool.eqb mbind result_bind andb fst snd].
  rewrite Htag. cbn [negb].
  assert (negb (Js.isStr (VStr name) "edit") && negb (Js.isStr (VStr name) "write")
          = false) as Hn by (by destruct Hname as [-> | ->]).
  unfold blockName, blockArgs, Js.coalesce, Js.optProp. simpl.
  simpl in Hn. rewrite Hn.
  assert (String.eqb p "" = false) as -> by (by apply String.eqb_neq).
  done.
Qed.

Lemma blockPath_functionCall_bad_json h name text :
  name = "edit" ∨ name = "write" →
  text ≠ "" →
  JSON_parse h text = None →
  blockPath h (functionCall name text) = Throw SyntaxError.
Proof.
  intros Hname Htext Hparse. unfold blockPath, functionCall.
  unfold blockName, blockArgs, Js.coalesce, Js.optProp, jsonParse. simpl.
  assert (negb (String.eqb name "edit") && negb (String.eqb name "write")
          = false) as -> by (by destruct Hname as [-> | ->]).
  assert (String.eqb text "" = false) as -> by (by apply String.eqb_neq).
  simpl. by rewrite Hparse.
Qed.

Lemma entryBlocks_assistantMessage blocks :
  entryBlocks (assistantMessage blocks) = Ok blocks.
Proof. reflexivity. Qed.

Lemma blockPaths_app h bs1 bs2 :
  blockPaths h (bs1 ++ bs2)
  = ps ← blockPaths h bs1; qs ← blockPaths h bs2; Ok (ps ++ qs)%list.
Proof.
  induction bs1 as [|b bs1 IH]; simpl.
  - by destruct (blockPaths h bs2).
  - destruct (blockPath h b) as [p|]; [|done]. simpl. rewrite IH.
    destruct (blockPaths h bs1) as [ps|]; [|done]. simpl.
    destruct (blockPaths h bs2) as [qs|]; [|done]. simpl.
    by rewrite app_assoc.
Qed.

Lemma scanPaths_app h es1 es2 :
  scanPaths h (es1 ++ es2)
  = ps ← scanPaths h es1; qs ← scanPaths h es2; Ok (ps ++ qs)%list.
Proof.
  induction es1 as [|e es1 IH]; simpl.
  - by destruct (scanPaths h es2).
  - destruct (entryBlocks e) as [bs|]; [|done]. simpl.
    destruct (blockPaths h bs) as [ps|]; [|done]. simpl. rewrite IH.
    destruct (scanPaths h es1) as [qs|]; [|done]. simpl.
    destruct (scanPaths h es2) as [rs|]; [|done]. simpl.
    by rewrite app_assoc.
Qed.

(** C2. A tool-call block in the nested shape whose [arguments] text is not
    JSON is not skipped: [JSON.parse] raises its [SyntaxError] inside the
    loop, outside any [try], and [getSessionEditedFiles] ends with that
    exception whatever blocks and entries follow. *)
Theorem getSessionEditedFiles_bad_json_throws h name text blocks entries :
  name = "edit" ∨ name = "write" →
  text ≠ "" →
  JSON_parse h text = None →
  getSessionEditedFiles h
    (session (assistantMessage (functionCall name text :: blocks) :: entries))
  = Throw SyntaxError.
Proof.
  intros Hname Htext Hparse. apply getSessionEditedFiles_throws.
  cbn [branch session scanPaths]. rewrite entryBlocks_assistantMessage.
  cbn [mbind result_bind blockPaths].
  by rewrite (blockPath_functionCall_bad_json _ _ _ Hname Htext Hparse).
Qed.

Lemma getSessionEditedFiles_malformed_example :
  JSON_parse plainPlatform "{not json" = None ∧
  getSessionEditedFiles plainPlatform malformedLog = Throw SyntaxError.
Proof.
  split; [reflexivity|].
  apply (getSessionEditedFiles_bad_json_throws plainPlatform "edit" "{not json").
  - by left.
  - discriminate.
  - reflexivity.
Defined.

(** *** Normalisation and deduplication *)

Lemma fold_note_snoc ps st f :
  fold_left note (ps ++ [f]) st = note (fold_left note ps st) f.
Proof. by rewrite fold_left_app. Qed.

(** What [note] does to [files], read on the list alone when [seen] is the
    set of the listed paths. *)
Lemma files_note st f :
  seen st = list_to_set (files st) →
  files (note st f)
  = if decide (f ∈ files st) then files st else (files st ++ [f])%list.
Proof.
  intros Hseen. unfold note.
  destruct (decide (f ∈ seen st)) as [Hin|Hnin];
    rewrite Hseen, elem_of_list_to_set in *; by destruct (decide (f ∈ files st)).
Qed.

(** Recording paths only ever extends [files] at its end. *)
Lemma fold_note_extends ps st :
  ∃ ext, files (fold_left note ps st) = (files st ++ ext)%list.
Proof.
  revert st. induction ps as [|f ps IH]; intros st; simpl.
  - exists []. by rewrite app_nil_r.
  - destruct (IH (note st f)) as [ext ->]. unfold note.
    destruct (decide (f ∈ seen st)); simpl; [by exists ext|].
    exists (f :: ext). by rewrite <- app_assoc.
Qed.

Lemma stripLeadingAt_at r : Str.stripLeadingAt (String "@" r) = r.
Proof. reflexivity. Qed.

Lemma stripLeadingAt_other p :
  Str.startsWith "@" p = false → Str.stripLeadingAt p = p.
Proof.
  destruct p as [|c r]; [done|].
  destruct c as [[] [] [] [] [] [] [] []]; simpl; intros H;
    done || discriminate H.
Qed.

(** *** The path texts before normalisation *)

(** The path of a block is its path text with one leading [@] removed. *)
Lemma blockPath_blockText h b :
  blockPath h b
  = (t ← blockText h b; Ok (Str.stripLeadingAt <$> t) : result (option string)).
Proof.
  unfold blockPath, blockText.
  destruct (negb (Js.truthy b) || negb (Js.typeofObject b)); [done|].
  destruct (Js.prop b "type") as [t|]; [|done]. cbn [mbind result_bind].
  destruct (negb (isToolCallTag t)); [done|].
  destruct (blockName b) as [name|]; [|done]. cbn [mbind result_bind].
  destruct (negb (Js.isStr name "edit") && negb (Js.isStr name "write")); [done|].
  destruct (blockArgs h b) as [args|]; [|done]. cbn [mbind result_bind].
  destruct (Js.optProp args "path") as [path|]; [|done]. cbn [mbind result_bind].
  destruct (negb (Js.truthy path)); [done|].
  by destruct (Js.toString path).
Qed.

Lemma blockPath_of_text h b t :
  blockText h b = Ok (Some t) → blockPath h b = Ok (Some (Str.stripLeadingAt t)).
Proof. intros H. by rewrite blockPath_blockText, H. Qed.

Lemma blockPaths_blockTexts h bs :
  blockPaths h bs
  = (ts ← blockTexts h bs; Ok (Str.stripLeadingAt <$> ts) : result (list string)).
Proof.
  induction bs as [|b bs IH]; [done|]. cbn [blockPaths blockTexts].
  rewrite blockPath_blockText, IH.
  destruct (blockText h b) as [t|]; [|done]. cbn [mbind result_bind].
  destruct (blockTexts h bs) as [ts|]; [|done]. cbn [mbind result_bind].
  rewrite fmap_app. by destruct t.
Qed.

Lemma scanPaths_scanTexts h es :
  scanPaths h es
  = (ts ← scanTexts h es; Ok (Str.stripLeadingAt <$> ts) : result (list string)).
Proof.
  induction es as [|e es IH]; [done|]. cbn [scanPaths scanTexts].
  destruct (entryBlocks e) as [bs|]; [|done]. cbn [mbind result_bind].
  rewrite blockPaths_blockTexts, IH.
  destruct (blockTexts h bs) as [ts|]; [|done]. cbn [mbind result_bind].
  destruct (scanTexts h es) as [us|]; [|done]. cbn [mbind result_bind].
  by rewrite fmap_app.
Qed.

(** The path text of a call in each of the three shapes the source reads:
    a path under [arguments], under [input], and in the JSON text of
    [function.arguments]. *)
Lemma blockText_toolCall h tag name p :
  isToolCallTag (VStr tag) = true →
  name = "edit" ∨ name = "write" →
  p ≠ "" →
  blockText h (toolCall tag name (VStr p)) = Ok (Some p).
Proof.
  intros Htag Hname Hp. unfold blockText, toolCall.
  cbn [Js.truthy Js.typeofObject negb orb Js.prop Js.lookupField String.eqb
       Ascii.eqb Bool.eqb mbind result_bind andb fst snd].
  rewrite Htag. cbn [negb].
  assert (negb (Js.isStr (VStr name) "edit") && negb (Js.isStr (VStr name) "write")
          = false) as Hn by (by destruct Hname as [-> | ->]).
  unfold blockName, blockArgs, Js.coalesce, Js.optProp. simpl.
  simpl in Hn. rewrite Hn.
  assert (String.eqb p "" = false) as -> by (by apply String.eqb_neq).
  done.
Qed.

Lemma blockText_toolUse h name p :
  name = "edit" ∨ name = "write" →
  p ≠ "" →
  blockText h (toolUse name (VStr p)) = Ok (Some p).
Proof.
  intros Hname Hp. unfold blockText, toolUse, blockName, blockArgs, Js.coalesce.
  simpl.
  assert (negb (String.eqb name "edit") && negb (String.eqb name "write")
          = false) as -> by (by destruct Hname as [-> | ->]).
  assert (String.eqb p "" = false) as -> by (by apply String.eqb_neq).
  done.
Qed.

Lemma blockText_functionCall h name text args p :
  name = "edit" ∨ name = "write" →
  text ≠ "" →
  JSON_parse h text = Some (VObj args) →
  Js.lookupField "path" args = VStr p →
  p ≠ "" →
  blockText h (functionCall name text) = Ok (Some p).
Proof.
  intros Hname Htext Hparse Hpath Hp. unfold blockText, functionCall.
  unfold blockName, blockArgs, Js.coalesce, jsonParse. simpl.
  assert (negb (String.eqb name "edit") && negb (String.eqb name "write")
          = false) as -> by (by destruct Hname as [-> | ->]).
  assert (String.eqb text "" = false) as -> by (by apply String.eqb_neq).
  simpl. rewrite Hparse. simpl. rewrite Hpath. simpl.
  assert (String.eqb p "" = false) as -> by (by apply String.eqb_neq).
  done.
Qed.

(** C7. Every path the extractor yields is a path text of the scan with
    exactly one leading [@] removed, and nothing else changed, whatever the
    shape of the call it was read from and wherever the call stands in the
    log: the result lists, without repetition and in the order of the
    scan, the texts [String(args.path)] of the edit and write calls, each
    normalised.  A further call appended to the log contributes its
    normalised text at the end unless it is listed already.  The
    normalised text is the rest of the text after a leading [@], and the
    text itself when it has none; so [@@foo.ts] gives [@foo.ts]. *)
Theorem getSessionEditedFiles_strips_one_at h entries fs :
  getSessionEditedFiles h (session entries) = Ok fs →
  (∃ texts,
     scanTexts h entries = Ok texts ∧
     firstSeen fs (Str.stripLeadingAt <$> texts) ∧
     (∀ p, p ∈ fs ↔ ∃ t, t ∈ texts ∧ p = Str.stripLeadingAt t)) ∧
  (∀ b t,
     blockText h b = Ok (Some t) →
     getSessionEditedFiles h (session (entries ++ [assistantMessage [b]]))
     = Ok (if decide (Str.stripLeadingAt t ∈ fs) then fs
           else (fs ++ [Str.stripLeadingAt t])%list)) ∧
  (∀ t, (∀ r, t = String "@" r → Str.stripLeadingAt t = r) ∧
        (Str.startsWith "@" t = false → Str.stripLeadingAt t = t)).
Proof.
  intros Hfs. split; [|split].
  - rewrite getSessionEditedFiles_scanPaths, scanPaths_scanTexts in Hfs.
    cbn [branch session] in Hfs.
    destruct (scanTexts h entries) as [texts|]; [|done].
    cbn [mbind result_bind] in Hfs. injection Hfs as <-.
    exists texts. split; [done|].
    destruct (fold_note_inv (Str.stripLeadingAt <$> texts) _ [] scanInv_init)
      as [_ Hfirst].
    cbn [app] in Hfirst. split; [done|].
    intros p. destruct Hfirst as (_ & Hmem & _). rewrite Hmem.
    rewrite list_elem_of_fmap. split.
    + intros (t & -> & Ht). by exists t.
    + intros (t & Ht & ->). by exists t.
  - intros b t Hb. apply blockPath_of_text in Hb.
    rewrite getSessionEditedFiles_scanPaths in *. cbn [branch session] in *.
    rewrite scanPaths_app.
    destruct (scanPaths h entries) as [ps|]; [|done].
    injection Hfs as <-.
    cbn [mbind result_bind scanPaths blockPaths].
    rewrite entryBlocks_assistantMessage. cbn [mbind result_bind blockPaths].
    rewrite Hb. cbn [mbind result_bind]. rewrite !app_nil_r.
    change (option_list (Some (Str.stripLeadingAt t)))
      with [Str.stripLeadingAt t].
    rewrite fold_note_snoc.
    f_equal. apply files_note.
    by destruct (fold_note_inv ps _ [] scanInv_init) as [Hseen _].
  - intros t. split; [intros r ->; apply stripLeadingAt_at|].
    apply stripLeadingAt_other.
Qed.

Lemma getSessionEditedFiles_double_at :
  getSessionEditedFiles plainPlatform (session markedLog)
  = Ok ["@foo.ts"; "lib/x.ts"; "y.ts"; "z.ts"; "plain.ts"; "7"] ∧
  scanTexts plainPlatform markedLog
  = Ok ["@@foo.ts"; "@lib/x.ts"; "@y.ts"; "@z.ts"; "plain.ts"; "@y.ts"; "7"] ∧
  ∃ texts,
    scanTexts plainPlatform markedLog = Ok texts ∧
    firstSeen ["@foo.ts"; "lib/x.ts"; "y.ts"; "z.ts"; "plain.ts"; "7"]
      (Str.stripLeadingAt <$> texts) ∧
    (∀ p, p ∈ ["@foo.ts"; "lib/x.ts"; "y.ts"; "z.ts"; "plain.ts"; "7"]
          ↔ ∃ t, t ∈ texts ∧ p = Str.stripLeadingAt t).
Proof.
  split; [vm_compute; reflexivity|]. split; [vm_compute; reflexivity|].
  refine (proj1 (getSessionEditedFiles_strips_one_at plainPlatform markedLog
                   ["@foo.ts"; "lib/x.ts"; "y.ts"; "z.ts"; "plain.ts"; "7"] _)).
  vm_compute; reflexivity.
Defined.

(** *** Calls at any place of the log *)

Lemma note_in st f : f ∈ seen st → note st f = st.
Proof. intros Hin. unfold note. by rewrite decide_True. Qed.

(** Recording a path that was recorded before changes nothing. *)
Lemma note_seen ps f :
  f ∈ ps →
  note (fold_left note ps {| seen := ∅; files := [] |}) f
  = fold_left note ps {| seen := ∅; files := [] |}.
Proof.
  intros Hin.
  destruct (fold_note_inv ps _ [] scanInv_init) as [Hseen (_ & Hmem & _)].
  apply note_in. rewrite Hseen, elem_of_list_to_set. by apply Hmem.
Qed.

Lemma fold_note_skip ps qs f :
  f ∈ ps →
  fold_left note (ps ++ f :: qs) {| seen := ∅; files := [] |}
  = fold_left note (ps ++ qs) {| seen := ∅; files := [] |}.
Proof.
  intros Hin. rewrite !fold_left_app. cbn [fold_left]. by rewrite note_seen.
Qed.

(** A path recorded for the first time stands right after the paths
    recorded before it, and nowhere else. *)
Lemma fold_note_first ps qs f :
  f ∉ files (fold_left note ps {| seen := ∅; files := [] |}) →
  ∃ rest,
    files (fold_left note (ps ++ f :: qs) {| seen := ∅; files := [] |})
    = (files (fold_left note ps {| seen := ∅; files := [] |}) ++ f :: rest)%list
    ∧ f ∉ rest.
Proof.
  intros Hnew.
  destruct (fold_note_inv (ps ++ f :: qs) _ [] scanInv_init)
    as [_ (Hnd & _ & _)].
  cbn [app] in Hnd. revert Hnd.
  rewrite fold_left_app. cbn [fold_left].
  set (st := fold_left note ps _) in *.
  assert (seen st = list_to_set (files st)) as Hseen
    by (by destruct (fold_note_inv ps _ [] scanInv_init) as [? _]).
  destruct (fold_note_extends qs (note st f)) as [ext Hext].
  rewrite Hext, (files_note st f Hseen), decide_False by done.
  rewrite <- app_assoc. cbn [app]. intros Hnd.
  exists ext. split; [done|].
  apply NoDup_app in Hnd as (_ & _ & Hnd). by apply NoDup_cons in Hnd as [? _].
Qed.

Lemma scanPaths_Ok_app h es1 es2 ps :
  scanPaths h (es1 ++ es2) = Ok ps →
  ∃ ps1 ps2, scanPaths h es1 = Ok ps1 ∧ scanPaths h es2 = Ok ps2 ∧
             ps = (ps1 ++ ps2)%list.
Proof.
  rewrite scanPaths_app.
  destruct (scanPaths h es1) as [ps1|]; [|done].
  destruct (scanPaths h es2) as [ps2|]; [|done].
  intros [= <-]. by exists ps1, ps2.
Qed.

Lemma blockPaths_Ok_app h bs1 bs2 ps :
  blockPaths h (bs1 ++ bs2) = Ok ps →
  ∃ ps1 ps2, blockPaths h bs1 = Ok ps1 ∧ blockPaths h bs2 = Ok ps2 ∧
             ps = (ps1 ++ ps2)%list.
Proof.
  rewrite blockPaths_app.
  destruct (blockPaths h bs1) as [ps1|]; [|done].
  destruct (blockPaths h bs2) as [ps2|]; [|done].
  intros [= <-]. by exists ps1, ps2.
Qed.

(** The paths of a list of blocks around one of its calls. *)
Lemma blockPaths_at h bs k c q ps :
  bs !! k = Some c →
  blockPath h c = Ok (Some q) →
  blockPaths h bs = Ok ps →
  ∃ ps1 ps2,
    blockPaths h (take k bs) = Ok ps1 ∧
    blockPaths h (drop (S k) bs) = Ok ps2 ∧
    ps = (ps1 ++ q :: ps2)%list.
Proof.
  intros Hk Hc Hps. rewrite <- (take_drop_middle bs k c Hk) in Hps.
  apply blockPaths_Ok_app in Hps as (ps1 & ps' & H1 & H' & ->).
  cbn [blockPaths] in H'. rewrite Hc in H'. cbn [mbind result_bind] in H'.
  destruct (blockPaths h (drop (S k) bs)) as [ps2|]; [|done].
  injection H' as <-. by exists ps1, ps2.
Qed.

(** The paths of a log around one of its entries. *)
Lemma scanPaths_at h entries m e bs ps :
  entries !! m = Some e →
  entryBlocks e = Ok bs →
  scanPaths h entries = Ok ps →
  ∃ ps1 qs ps2,
    scanPaths h (take m entries) = Ok ps1 ∧
    blockPaths h bs = Ok qs ∧
    scanPaths h (drop (S m) entries) = Ok ps2 ∧
    ps = (ps1 ++ qs ++ ps2)%list.
Proof.
  intros Hm He Hps. rewrite <- (take_drop_middle entries m e Hm) in Hps.
  apply scanPaths_Ok_app in Hps as (ps1 & ps' & H1 & H' & ->).
  cbn [scanPaths] in H'. rewrite He in H'. cbn [mbind result_bind] in H'.
  destruct (blockPaths h bs) as [qs|]; [|done]. cbn [mbind result_bind] in H'.
  destruct (scanPaths h (drop (S m) entries)) as [ps2|]; [|done].
  injection H' as <-. by exists ps1, qs, ps2.
Qed.

Lemma blockPaths_elem h bs k c q ps :
  bs !! k = Some c →
  blockPath h c = Ok (Some q) →
  blockPaths h bs = Ok ps →
  q ∈ ps.
Proof.
  intros Hk Hc Hps.
  destruct (blockPaths_at h bs k c q ps Hk Hc Hps) as (ps1 & ps2 & _ & _ & ->).
  rewrite elem_of_app, elem_of_cons. auto.
Qed.

Lemma scanPaths_elem h entries m e bs k c q ps :
  entries !! m = Some e →
  entryBlocks e = Ok bs →
  bs !! k = Some c →
  blockPath h c = Ok (Some q) →
  scanPaths h entries = Ok ps →
  q ∈ ps.
Proof.
  intros Hm He Hk Hc Hps.
  destruct (scanPaths_at h entries m e bs ps Hm He Hps)
    as (ps1 & qs & ps2 & _ & Hqs & _ & ->).
  rewrite !elem_of_app. right; left. by eapply blockPaths_elem.
Qed.

(** The paths of a log in which one entry is replaced by an assistant
    message. *)
Lemma scanPaths_insert h entries m blocks ps1 qs ps2 :
  m < length entries →
  scanPaths h (take m entries) = Ok ps1 →
  blockPaths h blocks = Ok qs →
  scanPaths h (drop (S m) entries) = Ok ps2 →
  scanPaths h (<[m := assistantMessage blocks]> entries)
  = Ok (ps1 ++ qs ++ ps2)%list.
Proof.
  intros Hm H1 Hqs H2. rewrite insert_take_drop by done.
  rewrite scanPaths_app, H1. cbn [mbind result_bind scanPaths].
  rewrite entryBlocks_assistantMessage. cbn [mbind result_bind].
  by rewrite Hqs, H2.
Qed.

(** The log up to a call, the call left out. *)
Lemma scanPaths_upto h entries m blocks ps1 qs :
  scanPaths h (take m entries) = Ok ps1 →
  blockPaths h blocks = Ok qs →
  scanPaths h (take m entries ++ [assistantMessage blocks])
  = Ok (ps1 ++ qs)%list.
Proof.
  intros H1 Hqs. rewrite scanPaths_app, H1. cbn [mbind result_bind scanPaths].
  rewrite entryBlocks_assistantMessage. cbn [mbind result_bind].
  rewrite Hqs. cbn [mbind result_bind]. by rewrite app_nil_r.
Qed.

(** C10. The seen-set is checked on the normalised path.  Take any session
    log that holds an edit or write call whose path text is [@p] and
    another whose path text is [p], in whatever shape, the first at block
    [k1] of entry [m1] and the second at block [k2] of entry [m2], in the
    same message or in different ones, in either order.  Then the result
    lists [p] exactly once; the later call adds nothing, the result being
    that of the log without it; and [p] stands where the earlier call put
    it, right after the result of the log up to that call, when [p] was
    not recorded before. *)
Theorem getSessionEditedFiles_dedup_normalized
    h entries fs m1 k1 m2 k2 e1 e2 bs1 bs2 c1 c2 t1 t2 p :
  entries !! m1 = Some e1 → entryBlocks e1 = Ok bs1 → bs1 !! k1 = Some c1 →
  entries !! m2 = Some e2 → entryBlocks e2 = Ok bs2 → bs2 !! k2 = Some c2 →
  m1 < m2 ∨ (m1 = m2 ∧ k1 < k2) →
  blockText h c1 = Ok (Some t1) →
  blockText h c2 = Ok (Some t2) →
  Str.startsWith "@" p = false →
  (t1 = String "@" p ∧ t2 = p) ∨ (t1 = p ∧ t2 = String "@" p) →
  getSessionEditedFiles h (session entries) = Ok fs →
  (∃ fs1 fs2, fs = (fs1 ++ p :: fs2)%list ∧ (p ∉ fs1) ∧ (p ∉ fs2)) ∧
  getSessionEditedFiles h
    (session (<[m2 := assistantMessage (delete k2 bs2)]> entries))
  = Ok fs ∧
  (∃ before,
     getSessionEditedFiles h
       (session (take m1 entries ++ [assistantMessage (take k1 bs1)]))
     = Ok before ∧
     (p ∉ before → ∃ rest, fs = (before ++ p :: rest)%list ∧ p ∉ rest)).
Proof.
  intros Hm1 He1 Hk1 Hm2 He2 Hk2 Horder Ht1 Ht2 Hnoat Htexts Hfs.
  assert (Str.stripLeadingAt t1 = p ∧ Str.stripLeadingAt t2 = p) as [Hs1 Hs2].
  { destruct Htexts as [[-> ->] | [-> ->]];
      split; try done; by apply stripLeadingAt_other. }
  apply blockPath_of_text in Ht1, Ht2. rewrite Hs1 in Ht1. rewrite Hs2 in Ht2.
  rewrite !getSessionEditedFiles_scanPaths in *. cbn [branch session] in *.
  destruct (scanPaths h entries) as [ps|] eqn:Hps; [|done].
  cbn [mbind result_bind] in Hfs. injection Hfs as <-.
  destruct (scanPaths_at h entries m1 e1 bs1 ps Hm1 He1 Hps)
    as (A1 & B1 & D1 & HA1 & HB1 & HD1 & Hps1).
  destruct (blockPaths_at h bs1 k1 c1 p B1 Hk1 Ht1 HB1)
    as (B11 & B12 & HB11 & HB12 & ->).
  destruct (scanPaths_at h entries m2 e2 bs2 ps Hm2 He2 Hps)
    as (A2 & B2 & D2 & HA2 & HB2 & HD2 & Hps2).
  destruct (blockPaths_at h bs2 k2 c2 p B2 Hk2 Ht2 HB2)
    as (B21 & B22 & HB21 & HB22 & ->).
  split; [|split].
  - destruct (fold_note_inv ps _ [] scanInv_init) as [_ (Hnd & Hmem & _)].
    cbn [app] in Hmem.
    assert (p ∈ files (fold_left note ps {| seen := ∅; files := [] |})) as Hin.
    { apply Hmem. rewrite Hps1, !elem_of_app, elem_of_cons. auto. }
    apply list_elem_of_split in Hin as (fs1 & fs2 & Hsplit).
    rewrite Hsplit in Hnd |- *. exists fs1, fs2. split; [done|].
    apply NoDup_app in Hnd as (_ & Hdis & Hnd).
    apply NoDup_cons in Hnd as [Hnot _]. split; [|done].
    intros Hin. apply (Hdis p Hin). by left.
  - assert (blockPaths h (delete k2 bs2) = Ok (B21 ++ B22)%list) as Hdel.
    { rewrite delete_take_drop, blockPaths_app, HB21, HB22. done. }
    rewrite (scanPaths_insert h entries m2 _ A2 _ D2
               (lookup_lt_Some _ _ _ Hm2) HA2 Hdel HD2).
    cbn [mbind result_bind]. f_equal. f_equal. rewrite Hps2.
    assert (p ∈ (A2 ++ B21)%list) as Hearlier.
    { destruct Horder as [Hlt | [-> Hlt]].
      - apply elem_of_app. left.
        eapply (scanPaths_elem h (take m2 entries) m1 e1 bs1 k1 c1);
          [|done..]. by rewrite lookup_take_lt.
      - rewrite Hm1 in Hm2. injection Hm2 as ->.
        rewrite He1 in He2. injection He2 as ->.
        apply elem_of_app. right.
        eapply (blockPaths_elem h (take k2 bs2) k1 c1); [|done..].
        by rewrite lookup_take_lt. }
    replace (A2 ++ (B21 ++ p :: B22) ++ D2)%list
      with ((A2 ++ B21) ++ p :: (B22 ++ D2))%list
      by (by rewrite <- !app_assoc).
    replace (A2 ++ (B21 ++ B22) ++ D2)%list
      with ((A2 ++ B21) ++ (B22 ++ D2))%list
      by (by rewrite <- !app_assoc).
    symmetry. by apply fold_note_skip.
  - rewrite (scanPaths_upto h entries m1 _ A1 B11 HA1 HB11).
    cbn [mbind result_bind]. eexists. split; [done|].
    intros Hnew. rewrite Hps1.
    replace (A1 ++ (B11 ++ p :: B12) ++ D1)%list
      with ((A1 ++ B11) ++ p :: (B12 ++ D1))%list
      by (by rewrite <- !app_assoc).
    by apply fold_note_first.
Qed.

Lemma getSessionEditedFiles_at_then_plain :
  getSessionEditedFiles plainPlatform (session twiceLog)
  = Ok ["a.ts"; "foo.ts"; "bar.ts"] ∧
  (∃ fs1 fs2,
     ["a.ts"; "foo.ts"; "bar.ts"] = (fs1 ++ "foo.ts" :: fs2)%list ∧
     ("foo.ts" ∉ fs1) ∧ ("foo.ts" ∉ fs2)) ∧
  getSessionEditedFiles plainPlatform
    (session (<[3 := assistantMessage
                       (delete 0 [functionCall "write"
                                    (Str.dq "{`path`: `foo.ts`}")])]> twiceLog))
  = Ok ["a.ts"; "foo.ts"; "bar.ts"] ∧
  (∃ before,
     getSessionEditedFiles plainPlatform
       (session (take 1 twiceLog
                 ++ [assistantMessage
                       (take 1 [toolCall "toolCall" "write" (VStr "a.ts");
                                toolUse "edit" (VStr "@foo.ts");
                                toolCall "toolCall" "write" (VStr "bar.ts")])]))
     = Ok before ∧
     ("foo.ts" ∉ before →
      ∃ rest, ["a.ts"; "foo.ts"; "bar.ts"] = (before ++ "foo.ts" :: rest)%list ∧
              "foo.ts" ∉ rest)).
Proof.
  split; [vm_compute; reflexivity|].
  apply (getSessionEditedFiles_dedup_normalized plainPlatform twiceLog
           ["a.ts"; "foo.ts"; "bar.ts"] 1 1 3 0
           (assistantMessage
              [toolCall "toolCall" "write" (VStr "a.ts");
               toolUse "edit" (VStr "@foo.ts");
               toolCall "toolCall" "write" (VStr "bar.ts")])
           (assistantMessage
              [functionCall "write" (Str.dq "{`path`: `foo.ts`}")])
           [toolCall "toolCall" "write" (VStr "a.ts");
            toolUse "edit" (VStr "@foo.ts");
            toolCall "toolCall" "write" (VStr "bar.ts")]
           [functionCall "write" (Str.dq "{`path`: `foo.ts`}")]
           (toolUse "edit" (VStr "@foo.ts"))
           (functionCall "write" (Str.dq "{`path`: `foo.ts`}"))
           "@foo.ts" "foo.ts" "foo.ts").
  - reflexivity.
  - reflexivity.
  - reflexivity.
  - reflexivity.
  - reflexivity.
  - reflexivity.
  - left. lia.
  - vm_compute; reflexivity.
  - vm_compute; reflexivity.
  - reflexivity.
  - by left.
  - vm_compute; reflexivity.
Defined.

(** The two calls alone, in either order and in either one message or
    two, give the single entry. *)
Lemma getSessionEditedFiles_foo_once :
  getSessionEditedFiles plainPlatform
    (session [assistantMessage [toolCall "toolCall" "edit" (VStr "@foo.ts");
                                toolCall "toolCall" "write" (VStr "foo.ts")]])
  = Ok ["foo.ts"] ∧
  getSessionEditedFiles plainPlatform
    (session [assistantMessage [toolCall "toolCall" "write" (VStr "foo.ts")];
              assistantMessage [toolCall "toolCall" "edit" (VStr "@foo.ts")]])
  = Ok ["foo.ts"].
Proof. split; vm_compute; reflexivity. Qed.

(** ** Ranking *)

#[local] Instance betterOrEqual_trans : Transitive betterOrEqual.
Proof. unfold betterOrEqual. intros a b c. lia. Qed.

#[local] Instance betterOrEqual_total : Total betterOrEqual.
Proof. unfold betterOrEqual. intros a b. lia. Qed.

Lemma StronglySorted_lookup {A : Type} (R : relation A) (l : list A) i j x y :
  StronglySorted R l → l !! i = Some x → l !! j = Some y → i < j → R x y.
Proof.
  intros Hs. revert i j. induction Hs as [|a l Hs IH Hall]; intros i j Hi Hj Hij.
  - by rewrite lookup_nil in Hi.
  - destruct j as [|j]; [lia|]. simpl in Hj. destruct i as [|i].
    + simpl in Hi. injection Hi as <-.
      rewrite Forall_forall in Hall. apply Hall.
      by eapply list_elem_of_lookup_2.
    + simpl in Hi. apply (IH i j); [done..|lia].
Qed.

Lemma insertByScore_Permutation r l : insertByScore r l ≡ₚ r :: l.
Proof.
  induction l as [|x l IH]; simpl; [done|].
  destruct (decide (betterOrEqual r x)); [done|].
  rewrite IH. apply Permutation_swap.
Qed.

Lemma sortByScore_Permutation l : sortByScore l ≡ₚ l.
Proof.
  induction l as [|r l IH]; simpl; [done|].
  by rewrite insertByScore_Permutation, IH.
Qed.

Lemma insertByScore_sorted r l :
  StronglySorted betterOrEqual l →
  StronglySorted betterOrEqual (insertByScore r l).
Proof.
  induction 1 as [|x l Hs IH Hall]; simpl.
  - by repeat constructor.
  - destruct (decide (betterOrEqual r x)) as [Hrx|Hrx].
    + constructor; [by constructor|]. constructor; [done|].
      eapply Forall_impl; [done|]. intros y Hxy. by transitivity x.
    + constructor; [done|]. rewrite insertByScore_Permutation.
      constructor; [|done]. by destruct (total betterOrEqual r x).
Qed.

Lemma sortByScore_sorted l : StronglySorted betterOrEqual (sortByScore l).
Proof.
  induction l as [|r l IH]; simpl; [constructor|].
  by apply insertByScore_sorted.
Qed.

Lemma filter_insertByScore s r l :
  StronglySorted betterOrEqual l →
  filter (λ x, score x = s) (insertByScore r l)
  = filter (λ x, score x = s) (r :: l).
Proof.
  induction 1 as [|x l Hs IH Hall]; [done|]. cbn [insertByScore].
  destruct (decide (betterOrEqual r x)) as [Hrx|Hrx]; [done|].
  rewrite (filter_cons _ x), IH, !filter_cons.
  destruct (decide (score r = s)) as [Hr|Hr]; [|done].
  destruct (decide (score x = s)) as [Hx|Hx]; [|done].
  unfold betterOrEqual in Hrx. lia.
Qed.

(** The sort is stable: the results of any one score come out in the
    order they went in. *)
Lemma sortByScore_stable s l :
  filter (λ r, score r = s) (sortByScore l) = filter (λ r, score r = s) l.
Proof.
  induction l as [|r l IH]; [done|]. cbn [sortByScore foldr].
  rewrite filter_insertByScore by apply sortByScore_sorted.
  fold (sortByScore l). by rewrite !filter_cons, IH.
Qed.

Section Ranking.
Variable fuzzyScore : string → string → option Z.
Variable query : string.

Lemma scoreCandidate_obj c r : scoreCandidate fuzzyScore query c = Some r →
  obj r = c ∧ fuzzyScore query (search (obj r)) = Some (score r).
Proof.
  unfold scoreCandidate.
  destruct (fuzzyScore query (search c)) as [s|] eqn:E; [|done].
  simpl. intros [= <-]. done.
Qed.

Lemma omap_scoreCandidate_sublist targets :
  obj <$> omap (scoreCandidate fuzzyScore query) targets `sublist_of` targets.
Proof.
  induction targets as [|c cs IH]; simpl; [constructor|].
  destruct (scoreCandidate fuzzyScore query c) as [r|] eqn:E; simpl.
  - apply scoreCandidate_obj in E as [-> _]. by constructor.
  - by constructor.
Qed.

Lemma fuzzysort_go_scored targets limit r :
  r ∈ fuzzysort_go fuzzyScore query targets limit →
  fuzzyScore query (search (obj r)) = Some (score r).
Proof.
  unfold fuzzysort_go. intros Hin.
  apply (λ H, elem_of_sublist _ _ _ H (sublist_take _ limit)) in Hin.
  rewrite sortByScore_Permutation in Hin.
  apply list_elem_of_omap in Hin as (c & _ & Hc).
  by apply scoreCandidate_obj in Hc as [_ ?].
Qed.

Lemma fuzzysort_go_sorted targets limit :
  StronglySorted betterOrEqual (fuzzysort_go fuzzyScore query targets limit).
Proof.
  unfold fuzzysort_go.
  set (sorted := sortByScore _).
  assert (StronglySorted betterOrEqual sorted) as Hs
    by apply sortByScore_sorted.
  rewrite <- (take_drop limit sorted) in Hs.
  by apply StronglySorted_app_1_l in Hs.
Qed.

Lemma fuzzysort_go_drawn targets limit :
  obj <$> fuzzysort_go fuzzyScore query targets limit ⊆+ targets.
Proof.
  unfold fuzzysort_go.
  transitivity
    (obj <$> sortByScore (omap (scoreCandidate fuzzyScore query) targets)).
  { apply sublist_submseteq, fmap_sublist, sublist_take. }
  rewrite sortByScore_Permutation.
  apply sublist_submseteq, omap_scoreCandidate_sublist.
Qed.

(** C6. With an empty or whitespace-only query [rankCandidates] returns
    the candidates as they are.  With any other query the result has at
    most 200 entries, is drawn from the candidates (each at most as often
    as it occurs there), and is ordered by descending score: an entry
    never scores below one that comes after it. *)
Theorem rankCandidates_spec (candidates : list Candidate) :
  (Str.trim query = "" →
   rankCandidates fuzzyScore candidates query = candidates) ∧
  (Str.trim query ≠ "" →
   (length (rankCandidates fuzzyScore candidates query) ≤ 200)%nat ∧
   rankCandidates fuzzyScore candidates query ⊆+ candidates ∧
   ∀ i j ci cj,
     rankCandidates fuzzyScore candidates query !! i = Some ci →
     rankCandidates fuzzyScore candidates query !! j = Some cj →
     i < j →
     ∃ si sj, fuzzyScore query (search ci) = Some si ∧
              fuzzyScore query (search cj) = Some sj ∧
              (sj ≤ si)%Z).
Proof.
  unfold rankCandidates. split.
  - intros ->. done.
  - intros Hq. apply String.eqb_neq in Hq. rewrite Hq.
    split; [|split].
    + rewrite length_fmap. unfold fuzzysort_go. rewrite length_take. lia.
    + apply fuzzysort_go_drawn.
    + intros i j ci cj Hi Hj Hij.
      apply list_lookup_fmap_Some in Hi as (ri & -> & Hri).
      apply list_lookup_fmap_Some in Hj as (rj & -> & Hrj).
      exists (score ri), (score rj). split; [|split].
      * eapply fuzzysort_go_scored. by eapply list_elem_of_lookup_2.
      * eapply fuzzysort_go_scored. by eapply list_elem_of_lookup_2.
      * eapply (StronglySorted_lookup betterOrEqual);
          [apply fuzzysort_go_sorted|done..].
Qed.

End Ranking.

Lemma rankCandidates_example :
  rankCandidates substringScore rankingCandidates "  " = rankingCandidates ∧
  path <$> rankCandidates substringScore rankingCandidates "app.ts"
    = ["src/app.ts"] ∧
  path <$> rankCandidates substringScore rankingCandidates "app"
    = ["src/app.ts"; "src/app.test.ts"] ∧
  (length (rankCandidates substringScore rankingCandidates "app") ≤ 200)%nat.
Proof.
  split; [|split; [vm_compute; reflexivity|split; [vm_compute; reflexivity|]]].
  - apply (proj1 (rankCandidates_spec substringScore "  " rankingCandidates)).
    reflexivity.
  - apply (proj2 (rankCandidates_spec substringScore "app" rankingCandidates)).
    discriminate.
Defined.

(** ** The picker flow *)

Lemma io_bind_trace {A B : Type} (m : io A) (k : A → io B) e :
  e ∈ trace (x ← m; k x) →
  e ∈ trace m ∨ ∃ a, outcome m = Ok a ∧ e ∈ trace (k a).
Proof.
  unfold mbind, io_bind. destruct (outcome m) as [a|]; simpl; [|auto].
  rewrite elem_of_app. intros [?|?]; eauto.
Qed.

Lemma pure_trace {A : Type} (r : result A) e : e ∉ trace (pure r).
Proof. apply not_elem_of_nil. Qed.

Lemma emit_trace e' e : e ∈ trace (emit e') → e = e'.
Proof. simpl. by rewrite list_elem_of_singleton. Qed.

(** [runOpenCommand] starts exactly one process, with the command line of
    [buildOpenCommand], and none when that raises an exception. *)
Lemma runOpenCommand_launch h filePath cwd st e :
  e ∈ trace (runOpenCommand h filePath cwd st) →
  ∃ command,
    buildOpenCommand h filePath cwd st = Ok command ∧
    (e = Spawn (envOr h "SHELL" "/bin/sh") ["-lc"; command] cwd ∨
     e = SpawnSync (envOr h "SHELL" "/bin/sh") ["-lc"; command] cwd).
Proof.
  unfold runOpenCommand. intros He.
  apply io_bind_trace in He as [He | (command & Hcmd & He)].
  { by apply pure_trace in He. }
  simpl in Hcmd. exists command. split; [done|].
  destruct (Js.isStr _ "background"); apply emit_trace in He; auto.
Qed.

(** C8. In the picker flow a selection that no longer exists when the
    picker resolves ends the flow with the warning and nothing else, and
    every process the flow starts is started by [runOpenCommand] on the
    selected path after that path passed the existence check. *)
Theorem openFilePicker_stale_selection h later pick ctx :
  (∀ found st selected,
     getSessionEditedFiles h ctx = Ok found →
     loadSettings h (ctx_cwd ctx) = Ok st →
     buildCandidates h found ≠ [] →
     pick (buildCandidates h found) = Some selected →
     selected ≠ "" →
     existsSync later selected = false →
     openFilePicker h later pick ctx
     = Io [PickerShown (path <$> buildCandidates h found);
           Notify ("File no longer exists: " +:+ selected) "warning"]
          (Ok ())) ∧
  (∀ e,
     e ∈ trace (openFilePicker h later pick ctx) →
     isLaunch e →
     ∃ found st selected command,
       getSessionEditedFiles h ctx = Ok found ∧
       loadSettings h (ctx_cwd ctx) = Ok st ∧
       pick (buildCandidates h found) = Some selected ∧
       existsSync later selected = true ∧
       buildOpenCommand h selected (ctx_cwd ctx) st = Ok command ∧
       (e = Spawn (envOr h "SHELL" "/bin/sh") ["-lc"; command] (ctx_cwd ctx) ∨
        e = SpawnSync (envOr h "SHELL" "/bin/sh") ["-lc"; command] (ctx_cwd ctx))).
Proof.
  split.
  - intros found st selected Hfound Hst Hcands Hpick Hsel Hgone.
    unfold openFilePicker. rewrite Hfound, Hst.
    unfold mbind, io_bind, pure. cbn [outcome trace app].
    destruct (length found =? 0)%nat eqn:Hlen.
    { apply Nat.eqb_eq, nil_length_inv in Hlen. subst found. done. }
    destruct (length (buildCandidates h found) =? 0)%nat eqn:Hlen'.
    { by apply Nat.eqb_eq, nil_length_inv in Hlen'. }
    rewrite Hpick. apply String.eqb_neq in Hsel. rewrite Hsel, Hgone.
    reflexivity.
  - intros e He Hlaunch. unfold openFilePicker in He.
    apply io_bind_trace in He as [He | (found & Hfound & He)].
    { by apply pure_trace in He. }
    simpl in Hfound.
    destruct (length found =? 0)%nat.
    { apply emit_trace in He. by subst e. }
    apply io_bind_trace in He as [He | (st & Hst & He)].
    { by apply pure_trace in He. }
    simpl in Hst.
    destruct (length (buildCandidates h found) =? 0)%nat.
    { apply emit_trace in He. by subst e. }
    apply io_bind_trace in He as [He | (_ & _ & He)].
    { apply emit_trace in He. by subst e. }
    destruct (pick (buildCandidates h found)) as [selected|] eqn:Hpick;
      [|by apply not_elem_of_nil in He].
    destruct (String.eqb selected ""); [by apply not_elem_of_nil in He|].
    destruct (existsSync later selected) eqn:Hexists; simpl in He;
      [|apply list_elem_of_singleton in He; by subst e].
    assert (e ∈ trace (runOpenCommand h selected (ctx_cwd ctx) st)) as Hrun.
    { destruct (Js.isStr _ "background").
      - apply io_bind_trace in He as [He | (_ & _ & He)]; [done|].
        apply emit_trace in He. by subst e.
      - apply io_bind_trace in He as [He | (_ & _ & He)].
        { apply emit_trace in He. by subst e. }
        apply io_bind_trace in He as [He | (_ & _ & He)].
        { apply emit_trace in He. by subst e. }
        apply io_bind_trace in He as [He | (_ & _ & He)]; [done|].
        apply io_bind_trace in He as [He | (_ & _ & He)].
        { apply emit_trace in He. by subst e. }
        apply emit_trace in He. by subst e. }
    apply runOpenCommand_launch in Hrun as (command & Hcmd & Hcases).
    exists found, st, selected, command. done.
Qed.

Lemma openFilePicker_stale_example :
  existsSync (fs stalePlatform) "/tmp/x/bar.go" = true ∧
  existsSync staleLater "/tmp/x/bar.go" = false ∧
  openFilePicker stalePlatform staleLater pickBar staleContext
  = Io [PickerShown ["/tmp/x/foo.go"; "/tmp/x/bar.go"];
        Notify "File no longer exists: /tmp/x/bar.go" "warning"]
       (Ok ()).
Proof.
  split; [reflexivity|]. split; [reflexivity|].
  apply (proj1 (openFilePicker_stale_selection stalePlatform staleLater pickBar
                  staleContext)
           ["/tmp/x/foo.go"; "/tmp/x/bar.go"]
           [("openMode", VStr "foreground"); ("shortcut", VStr "alt+o")]
           "/tmp/x/bar.go").
  - vm_compute; reflexivity.
  - vm_compute; reflexivity.
  - discriminate.
  - reflexivity.
  - discriminate.
  - reflexivity.
Defined.

(** When the file is still there the command is launched on it. *)
Lemma openFilePicker_launch_example :
  openFilePicker stalePlatform (fs stalePlatform) pickBar staleContext
  = Io [PickerShown ["/tmp/x/foo.go"; "/tmp/x/bar.go"];
        TuiStop; StdoutWrite clearScreen;
        SpawnSync "/bin/sh" ["-lc"; "vi '/tmp/x/bar.go'"] "/tmp/x";
        TuiStart; TuiRequestRender true]
       (Ok ()).
Proof. vm_compute; reflexivity. Qed.

(** * Further properties *)

(** ** Settings layers *)

Lemma loadSettings_paths h cwd :
  loadSettings h cwd
  = (let merged :=
       fold_left (mergeSettingsFile h) (settingsPaths h cwd) (envLayer h) in
     let mode := normalizeMode (Js.lookupField "openMode" merged) in
     let merged :=
       Js.setField "openMode"
         (if Js.nullish mode then VStr "foreground" else mode) merged in
     let shortcut := Js.lookupField "shortcut" merged in
     match (if Js.truthy shortcut then shortcut else VStr "alt+o") with
     | VStr s => Ok (Js.setField "shortcut" (VStr (Str.toLowerCase s)) merged)
     | _ => Throw TypeError
     end).
Proof. reflexivity. Qed.

Lemma lookupField_setIfTruthy k k' v (o : settings) :
  Js.lookupField k (setIfTruthy k' v o)
  = if String.eqb k' k && Js.truthy v then v else Js.lookupField k o.
Proof.
  unfold setIfTruthy. destruct (Js.truthy v).
  - rewrite lookupField_setField. by rewrite andb_true_r.
  - by rewrite andb_false_r.
Qed.

Lemma envTrim_truthy_str h name :
  Js.truthy (envTrim h name) = true → ∃ s, envTrim h name = VStr s ∧ s ≠ "".
Proof.
  unfold envTrim. destruct (env h name) as [s|]; [|done]. simpl.
  intros Hs. exists (Str.trim s). split; [done|].
  intros He. rewrite He in Hs. done.
Qed.

Lemma normalizeMode_truthy v :
  Js.truthy (normalizeMode v) = negb (Js.nullish (normalizeMode v)).
Proof. by destruct (normalizeMode_cases v) as [-> | [-> | ->]]. Qed.

Lemma normalizeMode_idem v : normalizeMode (normalizeMode v) = normalizeMode v.
Proof. by destruct (normalizeMode_cases v) as [-> | [-> | ->]]. Qed.

(** The three fields of the environment layer. *)
Lemma envLayer_lookup h :
  Js.lookupField "openCommand" (envLayer h) = envField h "PI_OPEN_FILE_COMMAND" ∧
  Js.lookupField "openMode" (envLayer h) = normalizeMode (envTrim h "PI_OPEN_FILE_MODE") ∧
  Js.lookupField "shortcut" (envLayer h) = envField h "PI_OPEN_FILE_SHORTCUT".
Proof.
  unfold envLayer, envField. rewrite !lookupField_setIfTruthy. simpl.
  repeat split.
  by destruct (normalizeMode_cases (envTrim h "PI_OPEN_FILE_MODE"))
    as [-> | [-> | ->]].
Qed.

Lemma spread_nothing (merged : settings) : Js.spread merged (VObj []) = merged.
Proof. reflexivity. Qed.

Lemma mergeSettingsFile_nothing h (merged : settings) p :
  nothingToMerge h p → mergeSettingsFile h merged p = merged.
Proof.
  unfold nothingToMerge, mergeSettingsFile, existsSync, readFileSync, jsonParse,
    pickExtensionSettings.
  destruct (fs h p) as [| |raw]; try done. simpl.
  destruct (JSON_parse h raw) as [parsed|]; [|done]. simpl.
  destruct (Js.optProp parsed "openSessionFiles") as [direct|]; [|done]. simpl.
  by intros ->.
Qed.

(** X2. Settings files with nothing to merge are ignored without any
    error: [loadSettings] gives what it gives when no file exists at
    all. *)
Theorem loadSettings_ignores_unusable_files h cwd :
  Forall (nothingToMerge h) (settingsPaths h cwd) →
  loadSettings h cwd = loadSettings (withFiles h (λ _, Missing)) cwd.
Proof.
  intros Hall. rewrite !loadSettings_paths.
  assert (fold_left (mergeSettingsFile h) (settingsPaths h cwd) (envLayer h)
          = envLayer h) as ->.
  { unfold settingsPaths in *. apply Forall_cons in Hall as [H1 Hall].
    apply Forall_cons in Hall as [H2 _]. simpl.
    by rewrite !mergeSettingsFile_nothing. }
  reflexivity.
Qed.

Lemma loadSettings_unusable_example :
  Forall (nothingToMerge unusableFiles) (settingsPaths unusableFiles "/w") ∧
  loadSettings unusableFiles "/w"
    = Ok [("openMode", VStr "background"); ("shortcut", VStr "alt+o")].
Proof.
  assert (Forall (nothingToMerge unusableFiles) (settingsPaths unusableFiles "/w"))
    as Hall.
  { repeat constructor. }
  split; [exact Hall|].
  rewrite (loadSettings_ignores_unusable_files unusableFiles "/w" Hall).
  reflexivity.
Defined.

Lemma fold_merge_nothing h cwd :
  Forall (nothingToMerge h) (settingsPaths h cwd) →
  fold_left (mergeSettingsFile h) (settingsPaths h cwd) (envLayer h) = envLayer h.
Proof.
  intros Hall. unfold settingsPaths in *.
  apply Forall_cons in Hall as [H1 Hall]. apply Forall_cons in Hall as [H2 _].
  simpl. by rewrite !mergeSettingsFile_nothing.
Qed.

Lemma envField_cases h name :
  envField h name = VUndefined ∨ ∃ s, envField h name = VStr s ∧ s ≠ "".
Proof.
  unfold envField. destruct (Js.truthy (envTrim h name)) eqn:E; [|by left].
  right. by apply envTrim_truthy_str.
Qed.

(** X3. With no usable settings file the environment and the defaults
    decide: the command is the trimmed [PI_OPEN_FILE_COMMAND] when that is
    not blank and is absent otherwise, the mode is [background] only when
    the trimmed [PI_OPEN_FILE_MODE] is exactly that and [foreground] in
    every other case, and the shortcut is the trimmed, lower-cased
    [PI_OPEN_FILE_SHORTCUT], or [alt+o] when that is unset or blank. *)
Theorem loadSettings_environment_defaults h cwd :
  Forall (nothingToMerge h) (settingsPaths h cwd) →
  ∃ st,
    loadSettings h cwd = Ok st ∧
    Js.lookupField "openCommand" st = envField h "PI_OPEN_FILE_COMMAND" ∧
    Js.lookupField "openMode" st
    = VStr (if Js.isStr (envTrim h "PI_OPEN_FILE_MODE") "background"
            then "background" else "foreground") ∧
    Js.lookupField "shortcut" st
    = VStr (match envField h "PI_OPEN_FILE_SHORTCUT" with
            | VStr s => Str.toLowerCase s
            | _ => "alt+o"
            end).
Proof.
  intros Hall. rewrite loadSettings_paths, fold_merge_nothing by done.
  destruct (envLayer_lookup h) as (Hcmd & Hmode & Hshort).
  cbv zeta. rewrite Hmode, normalizeMode_idem.
  rewrite (lookupField_setField_ne "shortcut" "openMode") by done.
  rewrite Hshort.
  set (mode := if Js.nullish (normalizeMode (envTrim h "PI_OPEN_FILE_MODE"))
               then VStr "foreground"
               else normalizeMode (envTrim h "PI_OPEN_FILE_MODE")).
  assert (mode = VStr (if Js.isStr (envTrim h "PI_OPEN_FILE_MODE") "background"
                       then "background" else "foreground")) as Hm.
  { unfold mode, normalizeMode.
    destruct (Js.isStr (envTrim h "PI_OPEN_FILE_MODE") "foreground") eqn:E1.
    - apply isStr_true in E1. by rewrite E1.
    - destruct (Js.isStr (envTrim h "PI_OPEN_FILE_MODE") "background") eqn:E2.
      + apply isStr_true in E2. by rewrite E2.
      + done. }
  destruct (envField_cases h "PI_OPEN_FILE_SHORTCUT") as [Hs | (s & Hs & Hne)];
    rewrite Hs; simpl.
  - eexists. split; [reflexivity|].
    rewrite !lookupField_setField_eq.
    rewrite !(lookupField_setField_ne "openCommand") by done.
    rewrite (lookupField_setField_ne "openMode" "shortcut") by done.
    rewrite lookupField_setField_eq. by rewrite Hcmd, Hm.
  - apply String.eqb_neq in Hne. rewrite Hne. simpl.
    eexists. split; [reflexivity|].
    rewrite !lookupField_setField_eq.
    rewrite !(lookupField_setField_ne "openCommand") by done.
    rewrite (lookupField_setField_ne "openMode" "shortcut") by done.
    rewrite lookupField_setField_eq. by rewrite Hcmd, Hm.
Qed.

Lemma loadSettings_shouting_example :
  Forall (nothingToMerge shoutingEnvironment) (settingsPaths shoutingEnvironment "/w") ∧
  ∃ st,
    loadSettings shoutingEnvironment "/w" = Ok st ∧
    Js.lookupField "openCommand" st = VStr "code -g {file}" ∧
    Js.lookupField "openMode" st = VStr "foreground" ∧
    Js.lookupField "shortcut" st = VStr "ctrl+shift+o".
Proof.
  assert (Forall (nothingToMerge shoutingEnvironment)
            (settingsPaths shoutingEnvironment "/w")) as Hall.
  { repeat constructor. }
  split; [exact Hall|].
  exact (loadSettings_environment_defaults shoutingEnvironment "/w" Hall).
Defined.

(** What [loadSettings] returns is the merged object with its mode and
    shortcut normalised; the other fields are those of the merge. *)
Lemma loadSettings_returned_fields h cwd st :
  loadSettings h cwd = Ok st →
  let merged := fold_left (mergeSettingsFile h) (settingsPaths h cwd) (envLayer h) in
  Js.lookupField "openCommand" st = Js.lookupField "openCommand" merged ∧
  Js.lookupField "openMode" st
  = (if Js.nullish (normalizeMode (Js.lookupField "openMode" merged))
     then VStr "foreground"
     else normalizeMode (Js.lookupField "openMode" merged)).
Proof.
  rewrite loadSettings_paths. cbv zeta.
  set (merged := fold_left _ _ _).
  destruct (if Js.truthy _ then _ else _); try discriminate.
  intros [= <-]. split.
  - by rewrite !(lookupField_setField_ne "openCommand") by done.
  - rewrite (lookupField_setField_ne "openMode" "shortcut") by done.
    apply lookupField_setField_eq.
Qed.

(** X4. A mode in the project settings file that is not one of the two
    modes is not ignored: it replaces what the environment and the global
    file said, and the effective mode falls back to [foreground]. *)
Theorem loadSettings_unknown_mode_resets h cwd raw top own st :
  fs h (path_join h [cwd; ".pi"; "settings.json"]) = Content raw →
  JSON_parse h raw = Some (VObj top) →
  Js.lookupField "openSessionFiles" top = VObj own →
  NoDup own.*1 →
  Js.hasField "openMode" own = true →
  normalizeMode (Js.lookupField "openMode" own) = VUndefined →
  loadSettings h cwd = Ok st →
  Js.lookupField "openMode" st = VStr "foreground".
Proof.
  intros Hfile Hparse Hown Hnd Hhas Hbad Hload.
  apply loadSettings_returned_fields in Hload as [_ ->].
  unfold settingsPaths. cbn [fold_left].
  rewrite (mergeSettingsFile_object _ _ _ _ _ _ Hfile Hparse Hown).
  rewrite lookupField_spread_obj by done. by rewrite Hhas, Hbad.
Qed.

Lemma loadSettings_unknown_mode_example :
  env unknownProjectMode "PI_OPEN_FILE_MODE" = Some "background" ∧
  loadSettings unknownProjectMode "/w"
    = Ok [("openMode", VStr "foreground"); ("shortcut", VStr "alt+o")] ∧
  Js.lookupField "openMode" [("openMode", VStr "foreground"); ("shortcut", VStr "alt+o")]
    = VStr "foreground".
Proof.
  split; [reflexivity|]. split; [reflexivity|].
  apply (loadSettings_unknown_mode_resets unknownProjectMode "/w"
           (Str.dq "{`openSessionFiles`:{`openMode`:`Background`}}")
           [("openSessionFiles", VObj [("openMode", VStr "Background")])]
           [("openMode", VStr "Background")]).
  - reflexivity.
  - reflexivity.
  - reflexivity.
  - compute_done.
  - reflexivity.
  - reflexivity.
  - reflexivity.
Defined.

(** X5. The command is layered field by field: the project settings file
    wins when it has an [openCommand], the global settings file when only
    it has one, and the environment when neither file has one. *)
Theorem loadSettings_command_layers h cwd rawG topG ownG rawP topP ownP st :
  fs h (path_join h [agentDir h; "settings.json"]) = Content rawG →
  JSON_parse h rawG = Some (VObj topG) →
  Js.lookupField "openSessionFiles" topG = VObj ownG →
  NoDup ownG.*1 →
  fs h (path_join h [cwd; ".pi"; "settings.json"]) = Content rawP →
  JSON_parse h rawP = Some (VObj topP) →
  Js.lookupField "openSessionFiles" topP = VObj ownP →
  NoDup ownP.*1 →
  loadSettings h cwd = Ok st →
  Js.lookupField "openCommand" st
  = if Js.hasField "openCommand" ownP then Js.lookupField "openCommand" ownP
    else if Js.hasField "openCommand" ownG then Js.lookupField "openCommand" ownG
    else envField h "PI_OPEN_FILE_COMMAND".
Proof.
  intros HfG HpG HoG HnG HfP HpP HoP HnP Hload.
  apply loadSettings_returned_fields in Hload as [-> _].
  unfold settingsPaths. cbn [fold_left].
  rewrite (mergeSettingsFile_object _ _ _ _ _ _ HfG HpG HoG).
  rewrite (mergeSettingsFile_object _ _ _ _ _ _ HfP HpP HoP).
  rewrite !lookupField_spread_obj by done.
  by destruct (envLayer_lookup h) as [-> _].
Qed.

Lemma loadSettings_layers_example :
  env layeredFiles "PI_OPEN_FILE_COMMAND" = Some "nano {file}" ∧
  loadSettings layeredFiles "/w"
    = Ok [("openCommand", VStr "vim {file}"); ("shortcut", VStr "alt+p");
          ("openMode", VStr "background")] ∧
  Js.lookupField "openCommand"
    [("openCommand", VStr "vim {file}"); ("shortcut", VStr "alt+p");
     ("openMode", VStr "background")]
  = VStr "vim {file}".
Proof.
  split; [reflexivity|]. split; [reflexivity|].
  apply (loadSettings_command_layers layeredFiles "/w"
           (Str.dq "{`openSessionFiles`:{`openCommand`:`vim {file}`,`shortcut`:`Alt+P`}}")
           [("openSessionFiles",
             VObj [("openCommand", VStr "vim {file}"); ("shortcut", VStr "Alt+P")])]
           [("openCommand", VStr "vim {file}"); ("shortcut", VStr "Alt+P")]
           (Str.dq "{`openSessionFiles`:{`openMode`:`background`}}")
           [("openSessionFiles", VObj [("openMode", VStr "background")])]
           [("openMode", VStr "background")]).
  - reflexivity.
  - reflexivity.
  - reflexivity.
  - compute_done.
  - reflexivity.
  - reflexivity.
  - reflexivity.
  - compute_done.
  - reflexivity.
Defined.

(** ** Strings: scanning and replacing *)

Section Scanning.
Implicit Types (s x y z pat repl before : string) (a c : ascii).

Lemma append_cons c x y : String c x +:+ y = String c (x +:+ y).
Proof. reflexivity. Qed.

Lemma append_empty_r s : s +:+ "" = s.
Proof. induction s as [|c r IH]; [done|]. by rewrite append_cons, IH. Qed.

Lemma append_assoc' x y z : (x +:+ y) +:+ z = x +:+ (y +:+ z).
Proof. induction x as [|c r IH]; [done|]. by rewrite !append_cons, IH. Qed.

Lemma append_inj_r x y c : x +:+ String c "" = y +:+ String c "" → x = y.
Proof.
  revert y. induction x as [|a x IH]; intros [|b y];
    rewrite ?append_cons; try done.
  - intros [= _ H]. by destruct y.
  - intros [= _ H]. by destruct x.
  - intros [= -> H]. f_equal. by apply IH.
Qed.

(** A pattern does not occur in a text in which its first character does
    not occur. *)
Lemma includes_first_char s a pat :
  Str.includes s (String a "") = false → Str.includes s (String a pat) = false.
Proof.
  induction s as [|c r IH]; simpl; [done|].
  rewrite andb_true_r. intros [Hc Hr]%orb_false_iff.
  rewrite Hc. simpl. by apply IH.
Qed.

Lemma includes_app_char x y a :
  Str.includes (x +:+ y) (String a "")
  = Str.includes x (String a "") || Str.includes y (String a "").
Proof.
  induction x as [|c r IH]; [done|].
  rewrite append_cons. cbn [Str.includes]. rewrite IH.
  cbn [Str.startsWith]. by rewrite orb_assoc.
Qed.

(** A text in which the pattern does not occur is left as it is. *)
Lemma replaceAllFrom_absent pat repl before s :
  Str.includes s pat = false → Str.replaceAllFrom pat repl before 0 s = s.
Proof.
  destruct pat as [|a p']; [by destruct s|].
  revert before. induction s as [|c r IH]; intros before; [done|].
  cbn [Str.includes Str.replaceAllFrom].
  intros [Hc Hr]%orb_false_iff. rewrite Hc. f_equal. by apply IH.
Qed.

Lemma replaceAll_absent s pat repl :
  Str.includes s pat = false → Str.replaceAll s pat repl = s.
Proof. apply replaceAllFrom_absent. Qed.

(** The characters of a match still to pass are passed. *)
Lemma replaceAllFrom_skip pat repl before x y :
  Str.replaceAllFrom pat repl before (String.length x) (x +:+ y)
  = Str.replaceAllFrom pat repl (before +:+ x) 0 y.
Proof.
  revert before. induction x as [|c r IH]; intros before.
  - by rewrite append_empty_r.
  - rewrite append_cons. cbn [String.length Str.replaceAllFrom].
    rewrite IH. by rewrite append_assoc'.
Qed.

Lemma startsWith_append pat y : Str.startsWith pat (pat +:+ y) = true.
Proof.
  induction pat as [|a p IH]; [done|].
  rewrite append_cons. cbn [Str.startsWith]. by rewrite Ascii.eqb_refl, IH.
Qed.

Lemma drop_append x y : Str.drop (String.length x) (x +:+ y) = y.
Proof. induction x as [|c r IH]; [by destruct y|]. by rewrite append_cons. Qed.

(** A match at the head of the text is replaced by its substitution. *)
Lemma replaceAllFrom_match a p repl before y :
  Str.replaceAllFrom (String a p) repl before 0 (String a p +:+ y)
  = Str.getSubstitution (String a p) before y repl
    +:+ Str.replaceAllFrom (String a p) repl (before +:+ String a p) 0 y.
Proof.
  change (Str.replaceAllFrom (String a p) repl before 0 (String a p +:+ y))
    with (if Str.startsWith (String a p) (String a p +:+ y)
          then Str.getSubstitution (String a p) before
                 (Str.drop (String.length (String a p)) (String a p +:+ y)) repl
               +:+ Str.replaceAllFrom (String a p) repl (before +:+ String a "")
                     (String.length p) (p +:+ y)
          else String a (Str.replaceAllFrom (String a p) repl
                           (before +:+ String a "") 0 (p +:+ y))).
  rewrite startsWith_append, drop_append, replaceAllFrom_skip.
  by rewrite append_assoc'.
Qed.

(** A stretch of text without the first character of the pattern is
    passed unchanged. *)
Lemma replaceAllFrom_pass a p repl before x z :
  Str.includes x (String a "") = false →
  Str.replaceAllFrom (String a p) repl before 0 (x +:+ z)
  = x +:+ Str.replaceAllFrom (String a p) repl (before +:+ x) 0 z.
Proof.
  revert before. induction x as [|c r IH]; intros before Hx.
  - by rewrite append_empty_r.
  - cbn [Str.includes Str.startsWith] in Hx. rewrite andb_true_r in Hx.
    apply orb_false_iff in Hx as [Hc Hr].
    rewrite !append_cons. cbn [Str.replaceAllFrom Str.startsWith].
    rewrite Hc. cbn [andb]. rewrite IH by done. by rewrite append_assoc'.
Qed.

End Scanning.

(** ** Shell escaping, continued *)

Lemma escapeQuotes_no_quote s :
  Str.includes s "'" = false → escapeQuotes s = s.
Proof.
  induction s as [|c r IH]; [done|].
  cbn [Str.includes Str.startsWith escapeQuotes]. rewrite andb_true_r.
  intros [Hc Hr]%orb_false_iff. rewrite Ascii.eqb_sym in Hc.
  rewrite Hc. f_equal. by apply IH.
Qed.

(** X6. An argument without single quote is escaped by putting it between
    single quotes, unchanged. *)
Theorem shellEscape_no_quote arg :
  Str.includes arg "'" = false → shellEscape arg = "'" +:+ arg +:+ "'".
Proof.
  intros H. rewrite shellEscape_chars. by rewrite escapeQuotes_no_quote.
Qed.

Lemma shellEscape_no_quote_example :
  Str.includes "/tmp/a b.ts" "'" = false ∧
  shellEscape "/tmp/a b.ts" = "'/tmp/a b.ts'".
Proof.
  split; [reflexivity|]. apply (shellEscape_no_quote "/tmp/a b.ts"). reflexivity.
Defined.

Lemma escapeQuotes_head s :
  match escapeQuotes s with
  | String c _ => c ≠ "'"%char
  | EmptyString => s = ""
  end.
Proof.
  destruct s as [|c r]; [done|]. cbn [escapeQuotes].
  destruct (Ascii.eqb_spec c "'") as [->|Hne]; [done|]. done.
Qed.

Lemma escapeQuotes_inj s1 s2 : escapeQuotes s1 = escapeQuotes s2 → s1 = s2.
Proof.
  revert s2. induction s1 as [|c1 r1 IH]; intros s2 Heq.
  - pose proof (escapeQuotes_head s2) as H. rewrite <- Heq in H. done.
  - destruct s2 as [|c2 r2].
    { pose proof (escapeQuotes_head (String c1 r1)) as H. rewrite Heq in H. done. }
    cbn [escapeQuotes] in Heq.
    destruct (Ascii.eqb_spec c1 "'") as [->|Hne1];
      destruct (Ascii.eqb_spec c2 "'") as [->|Hne2].
    + f_equal. apply IH. by injection Heq.
    + injection Heq as <- Heq. pose proof (escapeQuotes_head r2) as H.
      rewrite <- Heq in H. done.
    + injection Heq as -> Heq. pose proof (escapeQuotes_head r1) as H.
      rewrite Heq in H. done.
    + injection Heq as -> Heq. f_equal. by apply IH.
Qed.

(** X7. [shellEscape] keeps arguments apart: two different arguments never
    have the same escaped text. *)
Theorem shellEscape_distinct a b : a ≠ b → shellEscape a ≠ shellEscape b.
Proof.
  intros Hne Heq. apply Hne. rewrite !shellEscape_chars in Heq.
  injection Heq as Heq. apply append_inj_r in Heq. by apply escapeQuotes_inj.
Qed.

Lemma shellEscape_distinct_example :
  "it's" ≠ "its" ∧ shellEscape "it's" ≠ shellEscape "its".
Proof.
  split; [discriminate|]. apply (shellEscape_distinct "it's" "its"). discriminate.
Defined.

(** A character other than the two quotes occurs in the escaped text
    exactly when it occurs in the argument. *)
Lemma includes_escapeQuotes c s :
  c ≠ "'"%char → c ≠ Str.dquote →
  Str.includes (escapeQuotes s) (String c "") = Str.includes s (String c "").
Proof.
  intros H1 H2. apply Ascii.eqb_neq in H1, H2.
  induction s as [|a r IH]; [done|].
  cbn [escapeQuotes]. destruct (Ascii.eqb_spec a "'") as [->|Hne].
  - unfold quoteReplacement. rewrite !append_cons.
    cbn [Str.includes Str.startsWith append]. rewrite H1, H2. simpl. apply IH.
  - cbn [Str.includes Str.startsWith]. by rewrite IH.
Qed.

Lemma includes_shellEscape c s :
  c ≠ "'"%char → c ≠ Str.dquote →
  Str.includes (shellEscape s) (String c "") = Str.includes s (String c "").
Proof.
  intros H1 H2. rewrite shellEscape_chars.
  rewrite !includes_app_char, includes_escapeQuotes by done.
  apply Ascii.eqb_neq in H1. cbn [Str.includes Str.startsWith].
  rewrite H1. simpl. by rewrite orb_false_r.
Qed.

(** ** The command line, continued *)

Lemma includes_append_pat x pat y : Str.includes (x +:+ pat +:+ y) pat = true.
Proof.
  induction x as [|c r IH].
  - change ("" +:+ pat +:+ y) with (pat +:+ y).
    destruct (pat +:+ y) eqn:E; cbn [Str.includes]; rewrite <- E;
      by rewrite startsWith_append.
  - rewrite append_cons. cbn [Str.includes]. rewrite IH. apply orb_true_r.
Qed.

(** One occurrence of the pattern, between texts without its first
    character, and a replacement text without dollar sign: the occurrence
    is replaced by the text. *)
Lemma replaceAll_single a p repl pre post :
  Str.includes pre (String a "") = false →
  Str.includes post (String a "") = false →
  Str.includes repl "$" = false →
  Str.replaceAll (pre +:+ String a p +:+ post) (String a p) repl
  = pre +:+ repl +:+ post.
Proof.
  intros Hpre Hpost Hrepl. unfold Str.replaceAll.
  rewrite replaceAllFrom_pass by done.
  rewrite replaceAllFrom_match, getSubstitution_literal by done.
  rewrite replaceAllFrom_absent; [done|]. by apply includes_first_char.
Qed.

(** The template in use: the trimmed [openCommand]. *)
Lemma buildOpenCommand_template h filePath cwd (st : settings) s :
  Js.lookupField "openCommand" st = VStr s →
  Str.trim s ≠ "" →
  buildOpenCommand h filePath cwd st
  = Ok (let command :=
          Str.replaceAll
            (Str.replaceAll (Str.trim s) "{file}" (shellEscape filePath))
            "{cwd}" (shellEscape cwd) in
        if Str.includes (Str.trim s) "{file}" then command
        else command +:+ " " +:+ shellEscape filePath).
Proof.
  intros Hs Hne. unfold buildOpenCommand. rewrite Hs.
  apply String.eqb_neq in Hne. by rewrite Hne.
Qed.

(** The template in use when the settings give no command. *)
Lemma buildOpenCommand_fallback h filePath cwd (st : settings) :
  noOpenCommand st →
  buildOpenCommand h filePath cwd st
  = Ok (let template := envOr h "VISUAL" (envOr h "EDITOR" "vi") +:+ " {file}" in
        let command :=
          Str.replaceAll
            (Str.replaceAll template "{file}" (shellEscape filePath))
            "{cwd}" (shellEscape cwd) in
        if Str.includes template "{file}" then command
        else command +:+ " " +:+ shellEscape filePath).
Proof.
  unfold noOpenCommand, buildOpenCommand.
  destruct (Js.lookupField "openCommand" st) as [| | | |s| |]; try done.
  intros ->. done.
Qed.

Lemma shellEscape_plain p :
  Str.includes p "$" = false → Str.includes p "{" = false →
  Str.includes (shellEscape p) "$" = false ∧
  Str.includes (shellEscape p) "{" = false.
Proof. intros H1 H2. by rewrite !includes_shellEscape. Qed.



(** X9. A template with one file placeholder, and no other brace, gets
    the escaped path in place of the placeholder, for a path without
    dollar sign and brace. *)
Theorem buildOpenCommand_substitutes_file h filePath cwd (st : settings) s pre post :
  Js.lookupField "openCommand" st = VStr s →
  Str.trim s = pre +:+ "{file}" +:+ post →
  Str.includes pre "{" = false →
  Str.includes post "{" = false →
  Str.includes filePath "$" = false →
  Str.includes filePath "{" = false →
  buildOpenCommand h filePath cwd st
  = Ok (pre +:+ shellEscape filePath +:+ post).
Proof.
  intros Hs Htrim Hpre Hpost Hdollar Hbrace.
  destruct (shellEscape_plain filePath Hdollar Hbrace) as [HE1 HE2].
  rewrite (buildOpenCommand_template _ _ _ _ _ Hs).
  2:{ rewrite Htrim. intros He. by destruct pre. }
  cbv zeta. rewrite Htrim, includes_append_pat.
  rewrite replaceAll_single by done.
  rewrite replaceAll_absent; [done|].
  apply includes_first_char. rewrite !includes_app_char.
  by rewrite Hpre, HE2, Hpost.
Qed.

Lemma buildOpenCommand_substitutes_example :
  buildOpenCommand plainPlatform "/tmp/it's here.ts" "/w"
    [("openCommand", VStr "code -g {file} --wait")]
  = Ok ("code -g " +:+ shellEscape "/tmp/it's here.ts" +:+ " --wait").
Proof.
  apply (buildOpenCommand_substitutes_file plainPlatform "/tmp/it's here.ts" "/w"
           [("openCommand", VStr "code -g {file} --wait")]
           "code -g {file} --wait" "code -g " " --wait");
    reflexivity.
Defined.

(** X10. With no command in the settings the editor of the environment
    is used, [VISUAL] before [EDITOR] before [vi]: the command is the
    editor, a space and the escaped path, for an editor without brace and
    a path without dollar sign and brace. *)
Theorem buildOpenCommand_default_editor h filePath cwd (st : settings) :
  noOpenCommand st →
  Str.includes (envOr h "VISUAL" (envOr h "EDITOR" "vi")) "{" = false →
  Str.includes filePath "$" = false →
  Str.includes filePath "{" = false →
  buildOpenCommand h filePath cwd st
  = Ok (envOr h "VISUAL" (envOr h "EDITOR" "vi") +:+ " " +:+ shellEscape filePath).
Proof.
  intros Hno Heditor Hdollar Hbrace.
  destruct (shellEscape_plain filePath Hdollar Hbrace) as [HE1 HE2].
  rewrite (buildOpenCommand_fallback _ _ _ _ Hno). cbv zeta.
  set (editor := envOr h "VISUAL" (envOr h "EDITOR" "vi")) in *.
  assert (editor +:+ " {file}" = (editor +:+ " ") +:+ "{file}" +:+ "") as ->.
  { by rewrite append_assoc'. }
  assert (Str.includes (editor +:+ " ") "{" = false) as Hpre.
  { rewrite includes_app_char. by rewrite Heditor. }
  rewrite includes_append_pat, replaceAll_single by done.
  rewrite replaceAll_absent.
  - by rewrite append_empty_r, append_assoc'.
  - apply includes_first_char. rewrite !includes_app_char.
    by rewrite Heditor, HE2.
Qed.

Lemma buildOpenCommand_default_example :
  buildOpenCommand
    (examplePlatform [("VISUAL", ""); ("EDITOR", "nvim")] []) "src/a b.ts" "/w"
    [("openMode", VStr "foreground"); ("shortcut", VStr "alt+o")]
  = Ok "nvim 'src/a b.ts'".
Proof.
  apply (buildOpenCommand_default_editor
           (examplePlatform [("VISUAL", ""); ("EDITOR", "nvim")] []) "src/a b.ts" "/w"
           [("openMode", VStr "foreground"); ("shortcut", VStr "alt+o")]);
    reflexivity.
Defined.

Lemma replaceAllFrom_step pat repl before c r :
  Str.startsWith pat (String c r) = false →
  Str.replaceAllFrom pat repl before 0 (String c r)
  = String c (Str.replaceAllFrom pat repl (before +:+ String c "") 0 r).
Proof. intros H. cbn [Str.replaceAllFrom]. by rewrite H. Qed.

(** X11. A template with the [{cwd}] placeholder and, after it, the
    [{file}] placeholder, and no other brace, gets the escaped working
    directory and the escaped path in their places, for a path without
    dollar sign and brace and a working directory without dollar sign. *)
Theorem buildOpenCommand_substitutes_cwd_and_file
    h filePath cwd (st : settings) s pre mid post :
  Js.lookupField "openCommand" st = VStr s →
  Str.trim s = pre +:+ "{cwd}" +:+ mid +:+ "{file}" +:+ post →
  Str.includes pre "{" = false →
  Str.includes mid "{" = false →
  Str.includes post "{" = false →
  Str.includes filePath "$" = false →
  Str.includes filePath "{" = false →
  Str.includes cwd "$" = false →
  buildOpenCommand h filePath cwd st
  = Ok (pre +:+ shellEscape cwd +:+ mid +:+ shellEscape filePath +:+ post).
Proof.
  intros Hs Htrim Hpre Hmid Hpost Hdollar Hbrace Hcwd.
  destruct (shellEscape_plain filePath Hdollar Hbrace) as [HE1 HE2].
  assert (Str.includes (shellEscape cwd) "$" = false) as HC
    by (by rewrite includes_shellEscape).
  rewrite (buildOpenCommand_template _ _ _ _ _ Hs).
  2:{ rewrite Htrim. intros He. by destruct pre. }
  cbv zeta. rewrite Htrim.
  assert (Str.includes (pre +:+ "{cwd}" +:+ mid +:+ "{file}" +:+ post) "{file}"
          = true) as ->.
  { replace (pre +:+ "{cwd}" +:+ mid +:+ "{file}" +:+ post)
      with ((pre +:+ "{cwd}" +:+ mid) +:+ "{file}" +:+ post)
      by (by rewrite !append_assoc').
    apply includes_append_pat. }
  assert (Str.replaceAll (pre +:+ "{cwd}" +:+ mid +:+ "{file}" +:+ post)
            "{file}" (shellEscape filePath)
          = pre +:+ "{cwd}" +:+ (mid +:+ shellEscape filePath +:+ post)) as ->.
  { unfold Str.replaceAll. rewrite replaceAllFrom_pass by done.
    change ("{cwd}" +:+ mid +:+ "{file}" +:+ post)
      with (String "{" ("cwd}" +:+ mid +:+ "{file}" +:+ post)).
    rewrite replaceAllFrom_step by done.
    replace ("cwd}" +:+ mid +:+ "{file}" +:+ post)
      with (("cwd}" +:+ mid) +:+ "{file}" +:+ post)
      by (by rewrite !append_assoc').
    rewrite replaceAllFrom_pass
      by (rewrite includes_app_char; by rewrite Hmid).
    rewrite replaceAllFrom_match, getSubstitution_literal by done.
    rewrite replaceAllFrom_absent by (by apply includes_first_char).
    by rewrite !append_assoc'. }
  rewrite replaceAll_single; [done|done| |done].
  rewrite !includes_app_char. by rewrite Hmid, HE2, Hpost.
Qed.

Lemma buildOpenCommand_tmux_example :
  buildOpenCommand plainPlatform "src/my file.ts" "/home/u/my project" tmuxSettings
  = Ok ("tmux split-window -h -c " +:+ shellEscape "/home/u/my project"
        +:+ " nvim " +:+ shellEscape "src/my file.ts" +:+ "").
Proof.
  apply (buildOpenCommand_substitutes_cwd_and_file plainPlatform
           "src/my file.ts" "/home/u/my project" tmuxSettings
           "tmux split-window -h -c {cwd} nvim {file}"
           "tmux split-window -h -c " " nvim " "");
    reflexivity.
Defined.

(** ** The scan of the session log, continued *)

Lemma getSessionEditedFiles_congr h ctx1 ctx2 :
  scanPaths h (branch ctx1) = scanPaths h (branch ctx2) →
  getSessionEditedFiles h ctx1 = getSessionEditedFiles h ctx2.
Proof. intros H. by rewrite !getSessionEditedFiles_scanPaths, H. Qed.

Lemma blockPaths_replace h b b' bs1 bs2 :
  blockPath h b = blockPath h b' →
  blockPaths h (bs1 ++ b :: bs2) = blockPaths h (bs1 ++ b' :: bs2).
Proof. intros H. rewrite !blockPaths_app. cbn [blockPaths]. by rewrite H. Qed.


Lemma scanPaths_message h bs bs' es1 es2 :
  blockPaths h bs = blockPaths h bs' →
  scanPaths h (es1 ++ assistantMessage bs :: es2)
  = scanPaths h (es1 ++ assistantMessage bs' :: es2).
Proof.
  intros H. rewrite !scanPaths_app. cbn [scanPaths].
  rewrite !entryBlocks_assistantMessage. cbn [mbind result_bind]. by rewrite H.
Qed.







(** X14. The result only grows with the log: what the extractor returns
    for a log is a prefix of what it returns for any longer log. *)
Theorem getSessionEditedFiles_prefix h ctx1 ctx2 more fs1 fs2 :
  branch ctx2 = (branch ctx1 ++ more)%list →
  getSessionEditedFiles h ctx1 = Ok fs1 →
  getSessionEditedFiles h ctx2 = Ok fs2 →
  fs1 `prefix_of` fs2.
Proof.
  rewrite !getSessionEditedFiles_scanPaths. intros -> H1 H2.
  rewrite scanPaths_app in H2.
  destruct (scanPaths h (branch ctx1)) as [ps|]; [|done].
  destruct (scanPaths h more) as [qs|]; [|done].
  simpl in H1, H2. injection H1 as <-. injection H2 as <-.
  rewrite fold_left_app.
  destruct (fold_note_extends qs (fold_left note ps {| seen := ∅; files := [] |}))
    as [ext ->].
  by exists ext.
Qed.

Lemma getSessionEditedFiles_prefix_example :
  getSessionEditedFiles plainPlatform
    {| branch := take 1 (branch interleavedLog); ctx_cwd := "/w" |}
  = Ok ["src/a.ts"; "src/b.ts"] ∧
  getSessionEditedFiles plainPlatform interleavedLog
  = Ok ["src/a.ts"; "src/b.ts"; "src/c.ts"] ∧
  ["src/a.ts"; "src/b.ts"] `prefix_of` ["src/a.ts"; "src/b.ts"; "src/c.ts"].
Proof.
  split; [vm_compute; reflexivity|]. split; [vm_compute; reflexivity|].
  apply (getSessionEditedFiles_prefix plainPlatform
           {| branch := take 1 (branch interleavedLog); ctx_cwd := "/w" |}
           interleavedLog (drop 1 (branch interleavedLog))).
  - reflexivity.
  - vm_compute; reflexivity.
  - vm_compute; reflexivity.
Defined.

(** A call appended to a log: its path is added at the end unless it is
    listed already. *)
Lemma getSessionEditedFiles_snoc_block h entries b fs0 f :
  getSessionEditedFiles h (session entries) = Ok fs0 →
  blockPath h b = Ok (Some f) →
  getSessionEditedFiles h (session (entries ++ [assistantMessage [b]]))
  = Ok (if decide (f ∈ fs0) then fs0 else (fs0 ++ [f])%list).
Proof.
  intros Hbefore Hb.
  rewrite getSessionEditedFiles_scanPaths in *. cbn [branch session] in *.
  rewrite scanPaths_app.
  destruct (scanPaths h entries) as [ps|]; [|done].
  injection Hbefore as <-.
  cbn [mbind result_bind scanPaths blockPaths].
  rewrite entryBlocks_assistantMessage. cbn [mbind result_bind blockPaths].
  rewrite Hb. cbn [mbind result_bind]. rewrite !app_nil_r.
  change (option_list (Some f)) with [f].
  rewrite fold_note_snoc. f_equal. apply files_note.
  by destruct (fold_note_inv ps _ [] scanInv_init) as [Hseen _].
Qed.

Lemma blockPath_functionCall h name text args p :
  name = "edit" ∨ name = "write" →
  text ≠ "" →
  JSON_parse h text = Some args →
  Js.optProp args "path" = Ok (VStr p) →
  p ≠ "" →
  blockPath h (functionCall name text) = Ok (Some (Str.stripLeadingAt p)).
Proof.
  intros Hname Htext Hparse Hpath Hp. unfold blockPath, functionCall.
  unfold blockName, blockArgs, Js.coalesce, jsonParse. simpl.
  assert (negb (String.eqb name "edit") && negb (String.eqb name "write")
          = false) as -> by (by destruct Hname as [-> | ->]).
  assert (String.eqb text "" = false) as -> by (by apply String.eqb_neq).
  simpl. rewrite Hparse. simpl. rewrite Hpath. simpl.
  assert (String.eqb p "" = false) as -> by (by apply String.eqb_neq).
  done.
Qed.

(** X15. A tool call in the nested shape, its arguments a JSON text that
    parses to an object with a path, contributes that path, normalised,
    like a call with parsed arguments. *)
Theorem getSessionEditedFiles_reads_json_arguments
    h entries fs0 name text args p :
  name = "edit" ∨ name = "write" →
  text ≠ "" →
  JSON_parse h text = Some (VObj args) →
  Js.lookupField "path" args = VStr p →
  p ≠ "" →
  getSessionEditedFiles h (session entries) = Ok fs0 →
  getSessionEditedFiles h
    (session (entries ++ [assistantMessage [functionCall name text]]))
  = Ok (if decide (Str.stripLeadingAt p ∈ fs0) then fs0
        else (fs0 ++ [Str.stripLeadingAt p])%list).
Proof.
  intros Hname Htext Hparse Hpath Hp Hbefore.
  apply getSessionEditedFiles_snoc_block; [done|].
  apply (blockPath_functionCall h name text (VObj args) p); try done.
  unfold Js.optProp, Js.prop. cbn [Js.nullish]. by rewrite Hpath.
Qed.

Lemma getSessionEditedFiles_json_example :
  getSessionEditedFiles plainPlatform
    (session ([assistantMessage [toolCall "toolCall" "edit" (VStr "a.ts")]]
              ++ [assistantMessage
                    [functionCall "write" (Str.dq "{`path`: `@src/new.ts`, `content`: `x`}")]]))
  = Ok ["a.ts"; "src/new.ts"].
Proof.
  apply (getSessionEditedFiles_reads_json_arguments plainPlatform
           [assistantMessage [toolCall "toolCall" "edit" (VStr "a.ts")]] ["a.ts"]
           "write" (Str.dq "{`path`: `@src/new.ts`, `content`: `x`}")
           [("path", VStr "@src/new.ts"); ("content", VStr "x")] "@src/new.ts").
  - by right.
  - discriminate.
  - reflexivity.
  - reflexivity.
  - discriminate.
  - vm_compute; reflexivity.
Defined.

(** X16. An entry of the branch that is [null] or [undefined] is not
    skipped: reading its [type] raises a [TypeError], and the extractor
    ends with it when the entries before scan without exception. *)
Theorem getSessionEditedFiles_nullish_entry h es1 e es2 fs :
  Js.nullish e = true →
  getSessionEditedFiles h (session es1) = Ok fs →
  getSessionEditedFiles h (session (es1 ++ e :: es2)) = Throw TypeError.
Proof.
  intros He Hbefore. apply getSessionEditedFiles_throws.
  rewrite getSessionEditedFiles_scanPaths in Hbefore. cbn [branch session] in *.
  rewrite scanPaths_app.
  destruct (scanPaths h es1) as [ps|]; [|done]. cbn [mbind result_bind scanPaths].
  by destruct e.
Qed.

Lemma getSessionEditedFiles_null_example :
  getSessionEditedFiles plainPlatform
    (session ([assistantMessage [toolCall "toolCall" "edit" (VStr "a.ts")]]
              ++ VNull :: [assistantMessage [toolCall "toolCall" "edit" (VStr "b.ts")]]))
  = Throw TypeError.
Proof.
  apply (getSessionEditedFiles_nullish_entry plainPlatform
           [assistantMessage [toolCall "toolCall" "edit" (VStr "a.ts")]] VNull
           [assistantMessage [toolCall "toolCall" "edit" (VStr "b.ts")]] ["a.ts"]).
  - reflexivity.
  - vm_compute; reflexivity.
Defined.

Lemma blockPath_toolUse h name p :
  name = "edit" ∨ name = "write" →
  p ≠ "" →
  blockPath h (toolUse name (VStr p)) = Ok (Some (Str.stripLeadingAt p)).
Proof.
  intros Hname Hp. unfold blockPath, toolUse, blockName, blockArgs, Js.coalesce.
  simpl.
  assert (negb (String.eqb name "edit") && negb (String.eqb name "write")
          = false) as -> by (by destruct Hname as [-> | ->]).
  assert (String.eqb p "" = false) as -> by (by apply String.eqb_neq).
  done.
Qed.

(** X17. A tool call that carries its arguments under [input] instead of
    [arguments] contributes its path like any other. *)
Theorem getSessionEditedFiles_reads_input h entries fs0 name p :
  name = "edit" ∨ name = "write" →
  p ≠ "" →
  getSessionEditedFiles h (session entries) = Ok fs0 →
  getSessionEditedFiles h
    (session (entries ++ [assistantMessage [toolUse name (VStr p)]]))
  = Ok (if decide (Str.stripLeadingAt p ∈ fs0) then fs0
        else (fs0 ++ [Str.stripLeadingAt p])%list).
Proof.
  intros Hname Hp Hbefore.
  apply getSessionEditedFiles_snoc_block; [done|]. by apply blockPath_toolUse.
Qed.

Lemma getSessionEditedFiles_input_example :
  getSessionEditedFiles plainPlatform
    (session ([] ++ [assistantMessage [toolUse "edit" (VStr "@lib/x.ts")]]))
  = Ok ["lib/x.ts"].
Proof.
  apply (getSessionEditedFiles_reads_input plainPlatform [] [] "edit" "@lib/x.ts").
  - by left.
  - discriminate.
  - reflexivity.
Defined.

(** X18. [arguments] shadows [input]: when a block has an [arguments]
    value that is neither [null] nor [undefined], its [input] is never
    read, so a path that is only under [input] is lost. *)
Theorem getSessionEditedFiles_arguments_shadow_input
    h tag name arguments input bs1 bs2 es1 es2 :
  Js.nullish arguments = false →
  getSessionEditedFiles h
    (session (es1 ++ assistantMessage
                       (bs1 ++ toolCallBoth tag name arguments input :: bs2) :: es2))
  = getSessionEditedFiles h
      (session (es1 ++ assistantMessage
                         (bs1 ++ toolCallBoth tag name arguments VUndefined :: bs2)
                    :: es2)).
Proof.
  intros Hargs. apply getSessionEditedFiles_congr. cbn [branch session].
  apply scanPaths_message, blockPaths_replace.
  unfold blockPath, toolCallBoth, blockName, blockArgs, Js.coalesce. simpl.
  by rewrite Hargs.
Qed.

Lemma getSessionEditedFiles_shadow_example :
  getSessionEditedFiles plainPlatform
    (session ([] ++ assistantMessage
                      ([] ++ toolCallBoth "toolCall" "edit" (VObj [])
                               (VObj [("path", VStr "lost.ts")]) :: []) :: []))
  = Ok [].
Proof.
  rewrite (getSessionEditedFiles_arguments_shadow_input plainPlatform
             "toolCall" "edit" (VObj []) (VObj [("path", VStr "lost.ts")]));
    [|reflexivity].
  vm_compute; reflexivity.
Defined.

(** ** The picker flow, continued *)

Lemma buildCandidates_nil h found :
  Forall (λ p, existsSync (fs h) p = false) found → buildCandidates h found = [].
Proof.
  unfold buildCandidates. induction 1 as [|p found Hp _ IH]; [done|].
  rewrite filter_cons_False; [done|]. by rewrite Hp.
Qed.

(** X19. With no edited file in the session the flow ends with one
    warning; the settings are not read, so the flow ends this way even
    where [loadSettings] would raise an exception. *)
Theorem openFilePicker_no_files h later pick ctx :
  getSessionEditedFiles h ctx = Ok [] →
  openFilePicker h later pick ctx
  = Io [Notify "No files edited by the agent in this session" "warning"] (Ok ()).
Proof. intros H. unfold openFilePicker. by rewrite H. Qed.

Lemma openFilePicker_no_files_example :
  loadSettings numericShortcut (ctx_cwd emptyContext) = Throw TypeError ∧
  openFilePicker numericShortcut (fs numericShortcut) pickBar emptyContext
  = Io [Notify "No files edited by the agent in this session" "warning"] (Ok ()).
Proof.
  split; [reflexivity|].
  apply (openFilePicker_no_files numericShortcut). reflexivity.
Defined.

(** X20. When the session has edited files and none of them exists any
    more, what happens is decided by [loadSettings], which runs before
    the files are looked up: when it returns, the flow ends with one
    warning and no picker is shown; when it raises an exception, the
    exception leaves the flow and nothing is notified. *)
Theorem openFilePicker_no_existing_files h later pick ctx found :
  getSessionEditedFiles h ctx = Ok found →
  found ≠ [] →
  Forall (λ p, existsSync (fs h) p = false) found →
  openFilePicker h later pick ctx
  = match loadSettings h (ctx_cwd ctx) with
    | Ok _ => Io [Notify "No existing edited files to open" "warning"] (Ok ())
    | Throw e => Io [] (Throw e)
    end.
Proof.
  intros Hfound Hne Hgone. apply buildCandidates_nil in Hgone.
  unfold openFilePicker. rewrite Hfound.
  unfold mbind, io_bind, pure. cbn [outcome trace app].
  destruct found as [|p found']; [done|]. cbn [length Nat.eqb].
  destruct (loadSettings h (ctx_cwd ctx)) as [st|e]; cbn [outcome trace app];
    [|done].
  by rewrite Hgone.
Qed.

Lemma openFilePicker_no_existing_example :
  openFilePicker plainPlatform (fs plainPlatform) pickBar staleContext
  = Io [Notify "No existing edited files to open" "warning"] (Ok ()) ∧
  loadSettings numericShortcut (ctx_cwd goneContext) = Throw TypeError ∧
  openFilePicker numericShortcut (fs numericShortcut) pickBar goneContext
  = Io [] (Throw TypeError).
Proof.
  split; [|split; [reflexivity|]].
  - rewrite (openFilePicker_no_existing_files plainPlatform (fs plainPlatform)
               pickBar staleContext ["/tmp/x/foo.go"; "/tmp/x/bar.go"]).
    + reflexivity.
    + vm_compute; reflexivity.
    + discriminate.
    + repeat constructor.
  - rewrite (openFilePicker_no_existing_files numericShortcut (fs numericShortcut)
               pickBar goneContext ["gone.ts"]).
    + reflexivity.
    + vm_compute; reflexivity.
    + discriminate.
    + repeat constructor.
Defined.

(** X21. When the picker is cancelled (it resolves to [null], or to an
    empty path) nothing happens after it: no process, no notification. *)
Theorem openFilePicker_cancelled h later pick ctx found st :
  getSessionEditedFiles h ctx = Ok found →
  loadSettings h (ctx_cwd ctx) = Ok st →
  buildCandidates h found ≠ [] →
  pick (buildCandidates h found) = None ∨ pick (buildCandidates h found) = Some "" →
  openFilePicker h later pick ctx
  = Io [PickerShown (path <$> buildCandidates h found)] (Ok ()).
Proof.
  intros Hfound Hst Hcands Hpick.
  unfold openFilePicker. rewrite Hfound, Hst.
  unfold mbind, io_bind, pure. cbn [outcome trace app].
  destruct (length found =? 0)%nat eqn:Hlen.
  { apply Nat.eqb_eq, nil_length_inv in Hlen. subst found. done. }
  destruct (length (buildCandidates h found) =? 0)%nat eqn:Hlen'.
  { by apply Nat.eqb_eq, nil_length_inv in Hlen'. }
  by destruct Hpick as [-> | ->].
Qed.

Lemma openFilePicker_cancelled_example :
  openFilePicker stalePlatform staleLater pickNothing staleContext
  = Io [PickerShown ["/tmp/x/foo.go"; "/tmp/x/bar.go"]] (Ok ()).
Proof.
  apply (openFilePicker_cancelled stalePlatform staleLater pickNothing staleContext
           ["/tmp/x/foo.go"; "/tmp/x/bar.go"]
           [("openMode", VStr "foreground"); ("shortcut", VStr "alt+o")]).
  - vm_compute; reflexivity.
  - vm_compute; reflexivity.
  - discriminate.
  - by left.
Defined.

(** The shape of a flow that reached the launch. *)
Lemma openFilePicker_selected h later pick ctx found st selected :
  getSessionEditedFiles h ctx = Ok found →
  loadSettings h (ctx_cwd ctx) = Ok st →
  buildCandidates h found ≠ [] →
  pick (buildCandidates h found) = Some selected →
  selected ≠ "" →
  existsSync later selected = true →
  openFilePicker h later pick ctx
  = (_ ← emit (PickerShown (path <$> buildCandidates h found));
     let mode := Js.lookupField "openMode" st in
     let mode := if Js.nullish mode then VStr "foreground" else mode in
     if Js.isStr mode "background" then
       _ ← runOpenCommand h selected (ctx_cwd ctx) st;
       emit (Notify "Launched open command in background" "info")
     else
       _ ← emit TuiStop;
       _ ← emit (StdoutWrite clearScreen);
       _ ← runOpenCommand h selected (ctx_cwd ctx) st;
       _ ← emit TuiStart;
       emit (TuiRequestRender true)).
Proof.
  intros Hfound Hst Hcands Hpick Hsel Hexists.
  unfold openFilePicker. rewrite Hfound, Hst.
  unfold mbind at 1 2, io_bind at 1 2, pure. cbn [outcome trace app].
  destruct (length found =? 0)%nat eqn:Hlen.
  { apply Nat.eqb_eq, nil_length_inv in Hlen. subst found. done. }
  destruct (length (buildCandidates h found) =? 0)%nat eqn:Hlen'.
  { by apply Nat.eqb_eq, nil_length_inv in Hlen'. }
  rewrite Hpick. apply String.eqb_neq in Hsel. by rewrite Hsel, Hexists.
Qed.

(** X22. A launch in foreground mode: the terminal UI is stopped and the
    screen cleared, the command runs attached through the login shell in
    the working directory, and the UI is started again and redrawn, in
    this order. *)
Theorem openFilePicker_foreground h later pick ctx found st selected command :
  getSessionEditedFiles h ctx = Ok found →
  loadSettings h (ctx_cwd ctx) = Ok st →
  buildCandidates h found ≠ [] →
  pick (buildCandidates h found) = Some selected →
  selected ≠ "" →
  existsSync later selected = true →
  Js.lookupField "openMode" st = VStr "foreground" →
  buildOpenCommand h selected (ctx_cwd ctx) st = Ok command →
  openFilePicker h later pick ctx
  = Io [PickerShown (path <$> buildCandidates h found);
        TuiStop;
        StdoutWrite clearScreen;
        SpawnSync (envOr h "SHELL" "/bin/sh") ["-lc"; command] (ctx_cwd ctx);
        TuiStart;
        TuiRequestRender true]
       (Ok ()).
Proof.
  intros Hfound Hst Hcands Hpick Hsel Hexists Hmode Hcmd.
  rewrite (openFilePicker_selected _ _ _ _ _ _ _ Hfound Hst Hcands Hpick Hsel Hexists).
  unfold runOpenCommand. rewrite Hmode, Hcmd. reflexivity.
Qed.

Lemma openFilePicker_foreground_example :
  openFilePicker stalePlatform (fs stalePlatform) pickBar staleContext
  = Io [PickerShown ["/tmp/x/foo.go"; "/tmp/x/bar.go"];
        TuiStop;
        StdoutWrite clearScreen;
        SpawnSync "/bin/sh" ["-lc"; "vi '/tmp/x/bar.go'"] "/tmp/x";
        TuiStart;
        TuiRequestRender true]
       (Ok ()).
Proof.
  apply (openFilePicker_foreground stalePlatform (fs stalePlatform) pickBar
           staleContext ["/tmp/x/foo.go"; "/tmp/x/bar.go"]
           [("openMode", VStr "foreground"); ("shortcut", VStr "alt+o")]
           "/tmp/x/bar.go" "vi '/tmp/x/bar.go'").
  - vm_compute; reflexivity.
  - vm_compute; reflexivity.
  - discriminate.
  - reflexivity.
  - discriminate.
  - reflexivity.
  - reflexivity.
  - reflexivity.
Defined.

(** X23. A launch in background mode: the command is started detached
    through the login shell in the working directory, the terminal UI is
    left alone, and an info notification follows. *)
Theorem openFilePicker_background h later pick ctx found st selected command :
  getSessionEditedFiles h ctx = Ok found →
  loadSettings h (ctx_cwd ctx) = Ok st →
  buildCandidates h found ≠ [] →
  pick (buildCandidates h found) = Some selected →
  selected ≠ "" →
  existsSync later selected = true →
  Js.lookupField "openMode" st = VStr "background" →
  buildOpenCommand h selected (ctx_cwd ctx) st = Ok command →
  openFilePicker h later pick ctx
  = Io [PickerShown (path <$> buildCandidates h found);
        Spawn (envOr h "SHELL" "/bin/sh") ["-lc"; command] (ctx_cwd ctx);
        Notify "Launched open command in background" "info"]
       (Ok ()).
Proof.
  intros Hfound Hst Hcands Hpick Hsel Hexists Hmode Hcmd.
  rewrite (openFilePicker_selected _ _ _ _ _ _ _ Hfound Hst Hcands Hpick Hsel Hexists).
  unfold runOpenCommand. rewrite Hmode, Hcmd. reflexivity.
Qed.

Lemma openFilePicker_background_example :
  openFilePicker backgroundPlatform (fs backgroundPlatform) pickBar staleContext
  = Io [PickerShown ["/tmp/x/foo.go"; "/tmp/x/bar.go"];
        Spawn "/bin/sh" ["-lc"; "code '/tmp/x/bar.go'"] "/tmp/x";
        Notify "Launched open command in background" "info"]
       (Ok ()).
Proof.
  apply (openFilePicker_background backgroundPlatform (fs backgroundPlatform) pickBar
           staleContext ["/tmp/x/foo.go"; "/tmp/x/bar.go"]
           [("openCommand", VStr "code"); ("openMode", VStr "background");
            ("shortcut", VStr "alt+o")]
           "/tmp/x/bar.go" "code '/tmp/x/bar.go'").
  - vm_compute; reflexivity.
  - vm_compute; reflexivity.
  - discriminate.
  - reflexivity.
  - discriminate.
  - reflexivity.
  - reflexivity.
  - reflexivity.
Defined.

(** X24. When building the command raises an exception in foreground
    mode, the flow ends with that exception after the terminal UI was
    stopped and the screen cleared: the UI is not started again. *)
Theorem openFilePicker_foreground_failure h later pick ctx found st selected e :
  getSessionEditedFiles h ctx = Ok found →
  loadSettings h (ctx_cwd ctx) = Ok st →
  buildCandidates h found ≠ [] →
  pick (buildCandidates h found) = Some selected →
  selected ≠ "" →
  existsSync later selected = true →
  Js.lookupField "openMode" st = VStr "foreground" →
  buildOpenCommand h selected (ctx_cwd ctx) st = Throw e →
  openFilePicker h later pick ctx
  = Io [PickerShown (path <$> buildCandidates h found); TuiStop;
        StdoutWrite clearScreen]
       (Throw e).
Proof.
  intros Hfound Hst Hcands Hpick Hsel Hexists Hmode Hcmd.
  rewrite (openFilePicker_selected _ _ _ _ _ _ _ Hfound Hst Hcands Hpick Hsel Hexists).
  unfold runOpenCommand. rewrite Hmode, Hcmd. reflexivity.
Qed.

Lemma openFilePicker_failure_example :
  openFilePicker numericCommand (fs numericCommand) pickBar staleContext
  = Io [PickerShown ["/tmp/x/foo.go"; "/tmp/x/bar.go"]; TuiStop;
        StdoutWrite clearScreen]
       (Throw TypeError).
Proof.
  apply (openFilePicker_foreground_failure numericCommand (fs numericCommand) pickBar
           staleContext ["/tmp/x/foo.go"; "/tmp/x/bar.go"]
           [("openCommand", VNum (integer 42)); ("openMode", VStr "foreground");
            ("shortcut", VStr "alt+o")]
           "/tmp/x/bar.go" TypeError).
  - vm_compute; reflexivity.
  - vm_compute; reflexivity.
  - discriminate.
  - reflexivity.
  - discriminate.
  - reflexivity.
  - reflexivity.
  - reflexivity.
Defined.

Lemma trace_bind {A B : Type} (m : io A) (k : A → io B) :
  trace (x ← m; k x)
  = match outcome m with
    | Ok a => (trace m ++ trace (k a))%list
    | Throw _ => trace m
    end.
Proof. unfold mbind, io_bind. by destruct (outcome m). Qed.

Lemma launches_app t1 t2 :
  launches (t1 ++ t2) = (launches t1 + launches t2)%nat.
Proof. unfold launches. by rewrite filter_app, length_app. Qed.

Lemma launches_runOpenCommand h filePath cwd st :
  (launches (trace (runOpenCommand h filePath cwd st)) ≤ 1)%nat.
Proof.
  unfold runOpenCommand. rewrite trace_bind. unfold pure. cbn [outcome trace].
  destruct (buildOpenCommand h filePath cwd st) as [command|];
    [|vm_compute; lia].
  destruct (Js.isStr _ "background"); vm_compute; lia.
Qed.

(** X25. One run of the picker flow starts at most one process. *)
Theorem openFilePicker_launches_once h later pick ctx :
  (launches (trace (openFilePicker h later pick ctx)) ≤ 1)%nat.
Proof.
  assert (∀ t : list event, filter isLaunch t = [] → (launches t ≤ 1)%nat)
    as Hnone by (intros t Ht; unfold launches; rewrite Ht; simpl; lia).
  unfold openFilePicker. rewrite trace_bind. unfold pure. cbn [outcome trace].
  destruct (getSessionEditedFiles h ctx) as [found|]; [|first [lia | by apply Hnone | cbn; lia]].
  cbn [app]. destruct (length found =? 0)%nat; [first [lia | by apply Hnone | cbn; lia]|].
  rewrite trace_bind. cbn [outcome trace].
  destruct (loadSettings h (ctx_cwd ctx)) as [st|]; [|first [lia | by apply Hnone | cbn; lia]].
  cbn [app]. destruct (length (buildCandidates h found) =? 0)%nat;
    [first [lia | by apply Hnone | cbn; lia]|].
  rewrite trace_bind. cbn [outcome emit trace].
  rewrite (launches_app [_]). change (launches [PickerShown _]) with 0.
  destruct (pick (buildCandidates h found)) as [selected|];
    [|first [lia | by apply Hnone | cbn; lia]].
  destruct (String.eqb selected ""); [first [lia | by apply Hnone | cbn; lia]|].
  destruct (existsSync later selected); [|first [lia | by apply Hnone | cbn; lia]]. cbn [negb].
  pose proof (launches_runOpenCommand h selected (ctx_cwd ctx) st) as Hrun.
  destruct (Js.isStr _ "background").
  - rewrite trace_bind.
    destruct (outcome (runOpenCommand h selected (ctx_cwd ctx) st)); [|lia].
    rewrite launches_app. change (launches (trace (emit _))) with 0. lia.
  - rewrite !trace_bind. cbn [outcome emit trace].
    rewrite !(launches_app [_]).
    change (launches [TuiStop]) with 0.
    change (launches [StdoutWrite clearScreen]) with 0.
    destruct (outcome (runOpenCommand h selected (ctx_cwd ctx) st)); [|lia].
    rewrite launches_app.
    change (launches ([TuiStart] ++ [TuiRequestRender true])) with 0. lia.
Qed.

(** ** The picker view *)


Lemma list_ascii_append s t :
  list_ascii_of_string (s +:+ t)
  = (list_ascii_of_string s ++ list_ascii_of_string t)%list.
Proof.
  induction s as [|a r IH]; [done|].
  rewrite append_cons. cbn [list_ascii_of_string]. by rewrite IH.
Qed.

Lemma dropLast_chars s :
  list_ascii_of_string (dropLast s) `sublist_of` list_ascii_of_string s.
Proof.
  induction s as [|a r IH]; [done|].
  destruct r as [|b r]; [by apply sublist_nil_l|].
  change (dropLast (String a (String b r))) with (String a (dropLast (String b r))).
  cbn [list_ascii_of_string] in *. by apply sublist_skip.
Qed.

Section PickerViewFacts.
Variable keys : keymap.
Variable fuzzyScore : string → string → option Z.
Variable candidates : list Candidate.

Lemma viewInv_viewFor f :
  Forall (λ c, printableChar c = true) (list_ascii_of_string f) →
  viewInv fuzzyScore candidates (viewFor fuzzyScore candidates f).
Proof. intros H. by repeat split. Qed.

Lemma viewInv_initial :
  viewInv fuzzyScore candidates (initialView fuzzyScore candidates).
Proof. apply viewInv_viewFor. constructor. Qed.

Lemma handleInput_inv v data :
  viewInv fuzzyScore candidates v →
  viewInv fuzzyScore candidates (handleInput keys fuzzyScore candidates v data).1.
Proof.
  intros (Hline & Hitems & Hrows & Hchars). unfold handleInput.
  destruct (isBackspace keys data).
  { apply viewInv_viewFor. rewrite Forall_forall in *. intros c Hc.
    apply Hchars. eapply elem_of_sublist; [done|apply dropLast_chars]. }
  destruct (isCtrlU keys data).
  { apply viewInv_viewFor. constructor. }
  destruct (isPrintable data) eqn:Hp; [|by repeat split].
  apply viewInv_viewFor. rewrite list_ascii_append. apply Forall_app.
  split; [done|]. destruct data as [|c [|]]; try done. by repeat constructor.
Qed.

Lemma afterInputs_inv_from v inputs :
  viewInv fuzzyScore candidates v →
  viewInv fuzzyScore candidates
    (fold_left (λ v data, (handleInput keys fuzzyScore candidates v data).1)
       inputs v).
Proof.
  revert v. induction inputs as [|data inputs IH]; intros v Hv; [done|].
  simpl. apply IH. by apply handleInput_inv.
Qed.

(** X26. Whatever is typed, navigation keys included, the view stays
    consistent: the filter line shown and the items and rows of the list
    are the ones built for the current filter, and the filter holds
    printable characters only (no control character, no DEL). *)
Theorem afterInputs_consistent inputs :
  view_filterLine (afterInputs keys fuzzyScore candidates inputs)
  = filterLineText (view_filter (afterInputs keys fuzzyScore candidates inputs)) ∧
  list_items (view_list (afterInputs keys fuzzyScore candidates inputs))
  = list_items
      (buildList fuzzyScore candidates
         (view_filter (afterInputs keys fuzzyScore candidates inputs))) ∧
  list_maxVisible (view_list (afterInputs keys fuzzyScore candidates inputs))
  = list_maxVisible
      (buildList fuzzyScore candidates
         (view_filter (afterInputs keys fuzzyScore candidates inputs))) ∧
  Forall (λ c, printableChar c = true)
    (list_ascii_of_string
       (view_filter (afterInputs keys fuzzyScore candidates inputs))).
Proof. apply afterInputs_inv_from, viewInv_initial. Qed.


(** X28. A blank filter does not filter: after any inputs that leave the
    filter empty or made of white space the list shows every candidate, in
    the order of the candidates; and Ctrl-U empties the filter whatever it
    held. *)
Theorem afterInputs_blank_filter inputs :
  (Str.trim (view_filter (afterInputs keys fuzzyScore candidates inputs)) = "" →
   list_items (view_list (afterInputs keys fuzzyScore candidates inputs))
   = toSelectItems candidates) ∧
  (∀ data,
     isBackspace keys data = false →
     isCtrlU keys data = true →
     (handleInput keys fuzzyScore candidates
        (afterInputs keys fuzzyScore candidates inputs) data).1
     = initialView fuzzyScore candidates).
Proof.
  split.
  - intros Hblank.
    destruct (afterInputs_inv_from _ inputs viewInv_initial)
      as (_ & Hitems & _).
    fold (afterInputs keys fuzzyScore candidates inputs) in Hitems.
    rewrite Hitems. cbn [buildList list_items].
    unfold rankCandidates. by rewrite Hblank.
  - intros data Hnb Hu. unfold handleInput. by rewrite Hnb, Hu.
Qed.

Lemma rankCandidates_drawn filterText c :
  c ∈ rankCandidates fuzzyScore candidates filterText → c ∈ candidates.
Proof.
  unfold rankCandidates.
  destruct (String.eqb (Str.trim filterText) ""); [done|].
  intros Hc. eapply elem_of_submseteq; [done|apply fuzzysort_go_drawn].
Qed.

(** X29. The list built for any filter shows at least one row and at
    most twelve, not more rows than it has items unless it has none, and
    every item it offers has the path of a candidate as its value and as
    its label. *)
Theorem buildList_rows_and_items filterText :
  (1 ≤ list_maxVisible (buildList fuzzyScore candidates filterText) ≤ 12)%nat ∧
  (list_items (buildList fuzzyScore candidates filterText) ≠ [] →
   (list_maxVisible (buildList fuzzyScore candidates filterText)
    ≤ length (list_items (buildList fuzzyScore candidates filterText)))%nat) ∧
  (∀ item,
     item ∈ list_items (buildList fuzzyScore candidates filterText) →
     ∃ c, c ∈ candidates ∧ item_value item = path c ∧ item_label item = path c).
Proof.
  unfold buildList. cbn [list_items list_maxVisible].
  set (items := toSelectItems _). split; [|split].
  - destruct (length items =? 0)%nat eqn:E; [lia|].
    apply Nat.eqb_neq in E. lia.
  - intros Hne. destruct (length items =? 0)%nat eqn:E; [|lia].
    apply Nat.eqb_eq, nil_length_inv in E. done.
  - intros item Hitem. unfold items, toSelectItems in Hitem.
    apply list_elem_of_fmap in Hitem as (c & -> & Hc).
    exists c. split; [|done]. by eapply rankCandidates_drawn.
Qed.

End PickerViewFacts.


Lemma afterInputs_blank_example :
  view_filter (afterInputs exampleKeys substringScore rankingCandidates
                 ["a"; String "127"%char ""; " "; " "]) = "  " ∧
  item_value <$> list_items
    (view_list (afterInputs exampleKeys substringScore rankingCandidates
                  ["a"; String "127"%char ""; " "; " "]))
  = ["src/app.ts"; "src/app.test.ts"; "README.md"].
Proof.
  split; [reflexivity|].
  rewrite (proj1 (afterInputs_blank_filter exampleKeys substringScore
                    rankingCandidates ["a"; String "127"%char ""; " "; " "]));
    reflexivity.
Defined.

(** ** Activation and the invariant of the settings *)

(** X1. Whenever [loadSettings] returns, the mode of the result is
    exactly [foreground] or [background], and its shortcut is a string
    that is not empty and has no upper-case letter, whatever the layers
    supplied. *)
Theorem loadSettings_result_invariant h cwd st :
  loadSettings h cwd = Ok st →
  (∃ mode, Js.lookupField "openMode" st = VStr mode ∧
           (mode = "foreground" ∨ mode = "background")) ∧
  (∃ s, Js.lookupField "shortcut" st = VStr s ∧
        s ≠ "" ∧ Str.toLowerCase s = s).
Proof.
  intros Hload.
  destruct (loadSettings_returned_wellformed h cwd st Hload) as [Hmode Hshort].
  split; [|done]. destruct Hmode as [-> | ->]; eauto.
Qed.

Lemma loadSettings_invariant_example :
  loadSettings shoutingEnvironment "/w"
    = Ok [("openCommand", VStr "code -g {file}"); ("shortcut", VStr "ctrl+shift+o");
          ("openMode", VStr "foreground")] ∧
  (∃ mode,
     Js.lookupField "openMode"
       [("openCommand", VStr "code -g {file}"); ("shortcut", VStr "ctrl+shift+o");
        ("openMode", VStr "foreground")] = VStr mode ∧
     (mode = "foreground" ∨ mode = "background")) ∧
  (∃ s,
     Js.lookupField "shortcut"
       [("openCommand", VStr "code -g {file}"); ("shortcut", VStr "ctrl+shift+o");
        ("openMode", VStr "foreground")] = VStr s ∧
     s ≠ "" ∧ Str.toLowerCase s = s).
Proof.
  split; [reflexivity|].
  apply (loadSettings_result_invariant shoutingEnvironment "/w").
  reflexivity.
Defined.

(** X30. Loading the extension registers one shortcut and the command
    [open-file]; the shortcut is the one of the settings loaded for the
    directory of the process, a non-empty lower-case string.  When
    [loadSettings] raises an exception, so does the loading, and nothing
    is registered. *)
Theorem activate_registers h processCwd :
  (∀ regs,
     activate h processCwd = Ok regs →
     ∃ st s,
       loadSettings h processCwd = Ok st ∧
       Js.lookupField "shortcut" st = VStr s ∧
       s ≠ "" ∧ Str.toLowerCase s = s ∧
       regs = [RegisterShortcut (VStr s)
                 "Pick and open a file edited by the agent this session";
               RegisterCommand "open-file"
                 "Pick and open a file edited by the agent this session"]) ∧
  (∀ e, loadSettings h processCwd = Throw e → activate h processCwd = Throw e).
Proof.
  unfold activate. split.
  - intros regs.
    destruct (loadSettings h processCwd) as [st|] eqn:Hload; [|done].
    destruct (loadSettings_returned_wellformed h processCwd st Hload)
      as [_ (s & Hs & Hne & Hlow)].
    simpl. rewrite Hs. intros [= <-]. exists st, s. repeat split; try done.
    apply String.eqb_neq in Hne. simpl. by rewrite Hne.
  - by intros e ->.
Qed.

Lemma activate_example :
  activate shoutingEnvironment "/w"
  = Ok [RegisterShortcut (VStr "ctrl+shift+o")
          "Pick and open a file edited by the agent this session";
        RegisterCommand "open-file"
          "Pick and open a file edited by the agent this session"] ∧
  activate numericShortcut "/w" = Throw TypeError.
Proof.
  split; [reflexivity|].
  apply (proj2 (activate_registers numericShortcut "/w") TypeError). reflexivity.
Defined.
